(** * markdown2html: a shallow embedding of [markdown2html.py]

    The script converts a small Markdown dialect to HTML.  Its core is

    - [parse_inline_formatting], four [re.sub] passes over one string, and
    - the block loop of [convert_markdown_to_html] with its helper
      [process_list_block].

    Python [str] values are sequences of Unicode code points; they are
    modelled as lists of code points ([N]).  [str.encode('utf-8')] raises
    on a lone surrogate, so [md5_hash] and everything that calls it is
    fallible: a raised exception is [None].  The [while] loop of
    [convert_markdown_to_html] is modelled by its loop body as a step
    function, iterated with fuel, because nothing in the source bounds the
    number of iterations. *)

From Stdlib Require Import Ascii String List NArith Arith Lia Bool.
Import ListNotations.

(** ** Text *)

Definition char := N.
Definition str := list char.

(** ASCII literals of the source, as code points. *)
Definition ch (a : ascii) : char := N_of_ascii a.
Definition lit (x : string) : str := map ch (list_ascii_of_string x).

Definition char_eqb (a b : char) : bool := N.eqb a b.

(** A Python truth test on a string: the empty string is false. *)
Definition truthy (s : str) : bool :=
  match s with [] => false | _ :: _ => true end.

Fixpoint str_eqb (a b : str) : bool :=
  match a, b with
  | [], [] => true
  | x :: a', y :: b' => char_eqb x y && str_eqb a' b'
  | _, _ => false
  end.

(** [s.startswith(p)] *)
Fixpoint startswith (p s : str) : bool :=
  match p, s with
  | [], _ => true
  | _ :: _, [] => false
  | x :: p', y :: s' => char_eqb x y && startswith p' s'
  end.

(** [p in s]: [p] occurs in [s] as a substring. *)
Fixpoint contains (p s : str) : bool :=
  startswith p s
  || match s with
     | [] => false
     | _ :: s' => contains p s'
     end.

(** Dropping the leading characters that satisfy [f]. *)
Fixpoint dropwhile (f : char -> bool) (s : str) : str :=
  match s with
  | [] => []
  | x :: s' => if f x then dropwhile f s' else s
  end.

Definition lstrip_by (f : char -> bool) (s : str) : str := dropwhile f s.
Definition rstrip_by (f : char -> bool) (s : str) : str :=
  rev (dropwhile f (rev s)).

(** The characters removed by [str.strip()] with no argument: those for
    which CPython's [Py_UNICODE_ISSPACE] holds. *)
Definition isspace (c : char) : bool :=
  ((9 <=? c) && (c <=? 13) || (28 <=? c) && (c <=? 32)
   || (c =? 133) || (c =? 160) || (c =? 5760)
   || (8192 <=? c) && (c <=? 8202)
   || (c =? 8232) || (c =? 8233) || (c =? 8239) || (c =? 8287)
   || (c =? 12288))%N.

(** [s.strip()] *)
Definition strip (s : str) : str := rstrip_by isspace (lstrip_by isspace s).

(** [s.rstrip('\n')] *)
Definition rstrip_nl (s : str) : str := rstrip_by (char_eqb 10%N) s.

(** [s.lstrip('#')] *)
Definition lstrip_hash (s : str) : str := lstrip_by (char_eqb (ch "#")) s.

(** [sep.join(parts)] *)
Fixpoint join (sep : str) (parts : list str) : str :=
  match parts with
  | [] => []
  | [p] => p
  | p :: rest => p ++ sep ++ join sep rest
  end.

(** The decimal rendering of a number by an f-string. *)
Definition digit_char (d : N) : char := (48 + d)%N.

Fixpoint str_of_N_fuel (fuel : nat) (n : N) (acc : str) : str :=
  match fuel with
  | O => acc
  | S f =>
      let acc' := digit_char (n mod 10) :: acc in
      if (n <? 10)%N then acc' else str_of_N_fuel f (n / 10) acc'
  end.

Definition str_of_nat (n : nat) : str :=
  str_of_N_fuel (S n) (N.of_nat n) [].

(** ** Exceptions

    [None] is a raised exception. *)

Definition bind {A B} (m : option A) (k : A -> option B) : option B :=
  match m with
  | Some a => k a
  | None => None
  end.

Notation "x <- m ;; k" := (bind m (fun x => k))
  (at level 61, m at next level, right associativity).

Fixpoint mapM {A B} (f : A -> option B) (l : list A) : option (list B) :=
  match l with
  | [] => Some []
  | a :: l' => b <- f a ;; bs <- mapM f l' ;; Some (b :: bs)
  end.

(** ** UTF-8 and MD5 ([hashlib.md5(text.encode('utf-8')).hexdigest()]) *)

Module UTF8.

(** The bytes of one code point; [None] for a surrogate (Python raises
    [UnicodeEncodeError]) and for a number that is no code point. *)
Definition encode_char (c : char) : option (list N) :=
  (if c <? 128 then Some [c]
   else if c <? 2048 then Some [192 + c / 64; 128 + c mod 64]
   else if c <? 65536 then
     if (55296 <=? c) && (c <? 57344) then None
     else Some [224 + c / 4096; 128 + (c / 64) mod 64; 128 + c mod 64]
   else if c <? 1114112 then
     Some [240 + c / 262144; 128 + (c / 4096) mod 64;
           128 + (c / 64) mod 64; 128 + c mod 64]
   else None)%N.

Fixpoint encode (s : str) : option (list N) :=
  match s with
  | [] => Some []
  | c :: s' => b <- encode_char c ;; bs <- encode s' ;; Some (b ++ bs)
  end.

(** A code point that can be encoded: a Unicode scalar value. *)
Definition scalar (c : char) : bool :=
  ((c <? 55296) || (57344 <=? c) && (c <? 1114112))%N.

End UTF8.

Module MD5.

Local Open Scope N_scope.

Definition w32 (x : N) : N := x mod 4294967296.

Definition not32 (x : N) : N := N.lxor x 4294967295.

Definition rotl (x n : N) : N :=
  w32 (N.lor (N.shiftl x n) (N.shiftr x (32 - n))).

Definition K : list N :=
  [ 0xd76aa478; 0xe8c7b756; 0x242070db; 0xc1bdceee;
    0xf57c0faf; 0x4787c62a; 0xa8304613; 0xfd469501;
    0x698098d8; 0x8b44f7af; 0xffff5bb1; 0x895cd7be;
    0x6b901122; 0xfd987193; 0xa679438e; 0x49b40821;
    0xf61e2562; 0xc040b340; 0x265e5a51; 0xe9b6c7aa;
    0xd62f105d; 0x02441453; 0xd8a1e681; 0xe7d3fbc8;
    0x21e1cde6; 0xc33707d6; 0xf4d50d87; 0x455a14ed;
    0xa9e3e905; 0xfcefa3f8; 0x676f02d9; 0x8d2a4c8a;
    0xfffa3942; 0x8771f681; 0x6d9d6122; 0xfde5380c;
    0xa4beea44; 0x4bdecfa9; 0xf6bb4b60; 0xbebfbc70;
    0x289b7ec6; 0xeaa127fa; 0xd4ef3085; 0x04881d05;
    0xd9d4d039; 0xe6db99e5; 0x1fa27cf8; 0xc4ac5665;
    0xf4292244; 0x432aff97; 0xab9423a7; 0xfc93a039;
    0x655b59c3; 0x8f0ccc92; 0xffeff47d; 0x85845dd1;
    0x6fa87e4f; 0xfe2ce6e0; 0xa3014314; 0x4e0811a1;
    0xf7537e82; 0xbd3af235; 0x2ad7d2bb; 0xeb86d391 ].

Definition R : list N :=
  [ 7; 12; 17; 22; 7; 12; 17; 22; 7; 12; 17; 22; 7; 12; 17; 22;
    5; 9; 14; 20; 5; 9; 14; 20; 5; 9; 14; 20; 5; 9; 14; 20;
    4; 11; 16; 23; 4; 11; 16; 23; 4; 11; 16; 23; 4; 11; 16; 23;
    6; 10; 15; 21; 6; 10; 15; 21; 6; 10; 15; 21; 6; 10; 15; 21 ].

Record state := mk_state { sa : N; sb : N; sc : N; sd : N }.

Definition init : state :=
  mk_state 0x67452301 0xefcdab89 0x98badcfe 0x10325476.

(** One of the 64 operations on a block given as 16 words. *)
Definition op (m : list N) (st : state) (i : nat) : state :=
  let '(mk_state a b c d) := st in
  let n := N.of_nat i in
  let '(f, g) :=
    if n <? 16 then (N.lor (N.land b c) (N.land (not32 b) d), n)
    else if n <? 32 then
      (N.lor (N.land d b) (N.land (not32 d) c), (5 * n + 1) mod 16)
    else if n <? 48 then (N.lxor (N.lxor b c) d, (3 * n + 5) mod 16)
    else (N.lxor c (N.lor b (not32 d)), (7 * n) mod 16) in
  let t := w32 (f + a + nth i K 0 + nth (N.to_nat g) m 0) in
  mk_state d (w32 (b + rotl t (nth i R 0))) b c.

(** A little-endian word of four bytes. *)
Definition word_of (bs : list N) : N :=
  nth 0 bs 0 + 256 * nth 1 bs 0 + 65536 * nth 2 bs 0
  + 16777216 * nth 3 bs 0.

Fixpoint group (k n : nat) (bs : list N) : list (list N) :=
  match n with
  | O => []
  | S n' => firstn k bs :: group k n' (skipn k bs)
  end.

Definition words_of (block : list N) : list N :=
  map word_of (group 4 16 block).

Definition compress (st : state) (block : list N) : state :=
  let r := fold_left (op (words_of block)) (seq 0 64) st in
  mk_state (w32 (sa st + sa r)) (w32 (sb st + sb r))
           (w32 (sc st + sc r)) (w32 (sd st + sd r)).

Definition le_bytes (n : nat) (x : N) : list N :=
  map (fun i => (x / 256 ^ N.of_nat i) mod 256) (seq 0 n).

Definition pad (msg : list N) : list N :=
  let len := N.of_nat (length msg) in
  msg ++ [128] ++ repeat 0 (N.to_nat ((119 - len mod 64) mod 64))
      ++ le_bytes 8 ((8 * len) mod 18446744073709551616).

Definition digest (msg : list N) : list N :=
  let p := pad msg in
  let st := fold_left compress (group 64 (length p / 64) p) init in
  le_bytes 4 (sa st) ++ le_bytes 4 (sb st)
    ++ le_bytes 4 (sc st) ++ le_bytes 4 (sd st).

Definition hexdigit (d : N) : char :=
  if d <? 10 then 48 + d else 87 + d.

Definition hex_of_byte (b : N) : str :=
  [hexdigit ((b / 16) mod 16); hexdigit (b mod 16)].

Definition hexdigest (msg : list N) : str :=
  flat_map hex_of_byte (digest msg).

End MD5.

(** [md5_hash(text)] *)
Definition md5_hash (text : str) : option str :=
  b <- UTF8.encode text ;; Some (MD5.hexdigest b).

(** ** The fragment of [re] the script uses

    The four patterns of [parse_inline_formatting] are sequences of
    literal characters around one capturing group [([^c]+)], and
    [remove_c_chars] uses the class [[cC]].  Matching is Python's: the
    leftmost match wins, [+] is greedy and gives characters back one at a
    time when the rest of the pattern fails. *)

Inductive re_atom : Type :=
| Chr (c : char)            (* a literal character *)
| AnyOf (cs : list char)    (* a class such as [cC] *)
| GroupPlusNot (c : char).  (* the group ([^c]+) *)

Definition regex := list re_atom.

(** A match found at the start of the subject: the text of group 1 and
    what follows the match. *)
Definition match_result : Type := str * str.

(** Greedy [[^c]+] followed by the continuation [k]: take one more
    character, try to go on taking, and only then try [k]. *)
Fixpoint plus_not (c : char) (k : str -> option match_result)
    (taken s : str) : option match_result :=
  match s with
  | [] => None
  | x :: s' =>
      if char_eqb x c then None
      else
        match plus_not c k (taken ++ [x]) s' with
        | Some r => Some r
        | None =>
            match k s' with
            | Some (_, rest) => Some (taken ++ [x], rest)
            | None => None
            end
        end
  end.

(** [pattern.match(s)]: a match anchored at the start of [s]. *)
Fixpoint match_here (p : regex) : str -> option match_result :=
  match p with
  | [] => fun s => Some ([], s)
  | Chr c :: p' => fun s =>
      match s with
      | x :: s' => if char_eqb x c then match_here p' s' else None
      | [] => None
      end
  | AnyOf cs :: p' => fun s =>
      match s with
      | x :: s' => if existsb (char_eqb x) cs then match_here p' s' else None
      | [] => None
      end
  | GroupPlusNot c :: p' => plus_not c (match_here p') []
  end.

(** [re.sub(p, repl, s)] for a pattern that cannot match the empty string:
    scan from the left; at a match, call [repl] on group 1 and go on after
    the match; otherwise copy one character.  Every round consumes at
    least one character, so [length s] rounds suffice (see
    [re_sub_cons]). *)
Fixpoint re_sub_from (fuel : nat) (p : regex) (repl : str -> option str)
    (s : str) : option str :=
  match s with
  | [] => Some []
  | x :: s' =>
      match fuel with
      | O => Some s
      | S fuel' =>
          match match_here p s with
          | Some (g, rest) =>
              r <- repl g ;;
              t <- re_sub_from fuel' p repl rest ;;
              Some (r ++ t)
          | None =>
              t <- re_sub_from fuel' p repl s' ;;
              Some (x :: t)
          end
      end
  end.

Definition re_sub (p : regex) (repl : str -> option str) (s : str)
  : option str :=
  re_sub_from (length s) p repl s.

(** The replacement template [pre \1 post]. *)
Definition template (pre post : str) (g : str) : option str :=
  Some (pre ++ g ++ post).

(** The pattern [oo([^c]+)cc]. *)
Definition delimited (o c : ascii) : regex :=
  [Chr (ch o); Chr (ch o); GroupPlusNot (ch c); Chr (ch c); Chr (ch c)].

(** ** The inline formatter *)

(** [remove_c_chars(text)]: [re.sub(r'[cC]', '', text)] *)
Definition remove_c_chars (text : str) : option str :=
  re_sub [AnyOf [ch "c"; ch "C"]] (fun _ => Some []) text.

Definition re_hash : regex := delimited "[" "]".
Definition re_no_c : regex := delimited "(" ")".
Definition re_bold : regex := delimited "*" "*".
Definition re_em : regex := delimited "_" "_".

Definition hash_stage (line : str) : option str :=
  re_sub re_hash md5_hash line.
Definition no_c_stage (line : str) : option str :=
  re_sub re_no_c remove_c_chars line.
Definition bold_stage (line : str) : option str :=
  re_sub re_bold (template (lit "<b>") (lit "</b>")) line.
Definition em_stage (line : str) : option str :=
  re_sub re_em (template (lit "<em>") (lit "</em>")) line.

(** [parse_inline_formatting(line)] *)
Definition parse_inline_formatting (line : str) : option str :=
  line <- hash_stage line ;;
  line <- no_c_stage line ;;
  line <- bold_stage line ;;
  line <- em_stage line ;;
  Some line.

(** ** The block parser *)

(** The [while] loop of [process_list_block].  [rest] is [lines[i:]]:
    the loop runs while [i < len(lines)] and reads [lines[i]], the head
    of [rest]; every round that does not leave the loop advances [i] by
    one, so the loop is structural in [rest]. *)
Fixpoint list_loop (prefix : str) (rest : list str) (i : nat)
    (list_content : list str) : option (list str * nat) :=
  match rest with
  | [] => Some (list_content, i)
  | raw :: rest' =>
      let line := rstrip_nl raw in
      if startswith prefix line then
        item_text <-
          parse_inline_formatting (strip (skipn (length prefix) line)) ;;
        list_loop prefix rest' (S i)
          (list_content ++ [lit "<li>" ++ item_text ++ lit "</li>"])
      else if negb (truthy (strip line)) then Some (list_content, S i)
      else Some (list_content, i)
  end.

(** [process_list_block(lines, start_index, list_char, list_tag)], for a
    start index that is not negative (the only caller passes the cursor
    of the main loop). *)
Definition process_list_block (lines : list str) (start_index : nat)
    (list_char list_tag : str) : option (list str * nat) :=
  r <- list_loop (list_char ++ lit " ") (skipn start_index lines)
         start_index [lit "<" ++ list_tag ++ lit ">"] ;;
  Some (fst r ++ [lit "</" ++ list_tag ++ lit ">"], snd r).

(** What one round of the main loop does. *)
Inductive step : Type :=
| Exit                                (* [i < len(lines)] is false *)
| Raise                               (* an exception leaves the loop *)
| Next (i : nat) (html : list str).   (* the next round's variables *)

(** The inner [while] loop of the paragraph case; [rest] is [lines[i:]]
    as in [list_loop]. *)
Fixpoint paragraph_loop (rest : list str) (i : nat)
    (paragraph_lines : list str) : list str * nat :=
  match rest with
  | [] => (paragraph_lines, i)
  | raw :: rest' =>
      let current_line := rstrip_nl raw in
      if negb (truthy (strip current_line))
         || startswith (lit "#") current_line
         || startswith (lit "- ") current_line
         || startswith (lit "* ") current_line
      then (paragraph_lines, i)
      else paragraph_loop rest' (S i) (paragraph_lines ++ [current_line])
  end.

(** Cases 3 to 5 of the loop body: the two kinds of list and the
    paragraph.  When none applies the body ends and the loop goes round
    with its variables unchanged. *)
Definition list_or_paragraph (lines : list str) (i : nat)
    (html_content : list str) (line : str) : step :=
  if startswith (lit "- ") line then
    match process_list_block lines i (lit "-") (lit "ul") with
    | Some (list_html, next_i) => Next next_i (html_content ++ list_html)
    | None => Raise
    end
  else if startswith (lit "* ") line then
    match process_list_block lines i (lit "*") (lit "ol") with
    | Some (list_html, next_i) => Next next_i (html_content ++ list_html)
    | None => Raise
    end
  else if truthy (strip line) then
    let '(paragraph_lines, i') := paragraph_loop (skipn i lines) i [] in
    match parse_inline_formatting (join (lit " ") paragraph_lines) with
    | Some paragraph_text =>
        Next i' (html_content ++ [lit "<p>" ++ paragraph_text ++ lit "</p>"])
    | None => Raise
    end
  else Next i html_content.

(** The body of the main loop of [convert_markdown_to_html]. *)
Definition main_step (lines : list str) (i : nat) (html_content : list str)
  : step :=
  match nth_error lines i with
  | None => Exit
  | Some raw =>
      let line := rstrip_nl raw in
      if negb (truthy (strip line)) then Next (S i) html_content
      else if startswith (lit "#") line then
        let level := length line - length (lstrip_hash line) in
        if (1 <=? level) && (level <=? 6)
           && str_eqb (firstn 1 (skipn level line)) (lit " ")
        then
          match parse_inline_formatting (strip (skipn (level + 1) line)) with
          | Some header_text =>
              Next (S i)
                (html_content
                 ++ [lit "<h" ++ str_of_nat level ++ lit ">" ++ header_text
                     ++ lit "</h" ++ str_of_nat level ++ lit ">"])
          | None => Raise
          end
        else list_or_paragraph lines i html_content line
      else list_or_paragraph lines i html_content line
  end.

(** How a run of the main loop ends. *)
Inductive outcome (A : Type) : Type :=
| Finished (a : A)
| Raised
| OutOfFuel.
Arguments Finished {A} a.
Arguments Raised {A}.
Arguments OutOfFuel {A}.

(** The main loop, for at most [fuel] rounds. *)
Fixpoint convert_loop (fuel : nat) (lines : list str) (i : nat)
    (html_content : list str) : outcome (list str) :=
  match fuel with
  | O => OutOfFuel
  | S fuel' =>
      match main_step lines i html_content with
      | Exit => Finished html_content
      | Raise => Raised
      | Next i' html' => convert_loop fuel' lines i' html'
      end
  end.

(** [convert_markdown_to_html] between reading [lines] and writing the
    text [join(html_content) + newline]. *)
Definition convert_markdown_to_html (fuel : nat) (lines : list str)
  : outcome str :=
  match convert_loop fuel lines 0 [] with
  | Finished html_content =>
      Finished (join [10%N] html_content ++ [10%N])
  | Raised => Raised
  | OutOfFuel => OutOfFuel
  end.

(** ** Vocabulary of the statements *)

Definition is_lower_hex (x : char) : bool :=
  ((48 <=? x) && (x <=? 57) || (97 <=? x) && (x <=? 102))%N.

Definition is_c (x : char) : bool :=
  char_eqb x (ch "c") || char_eqb x (ch "C").

(** The text with every [c] and [C] left out, the others in their order. *)
Definition without_c (text : str) : str :=
  filter (fun x => negb (is_c x)) text.

Definition plain (s : str) : Prop :=
  ~ In (ch "[") s /\ ~ In (ch "(") s /\ ~ In (ch "*") s /\ ~ In (ch "_") s.

Definition is_delimiter (x : char) : bool :=
  existsb (char_eqb x) (lit "[]()*_").

(** Text in which none of the six delimiter characters occurs. *)
Definition delimiter_free (s : str) : Prop :=
  forall x, In x s -> is_delimiter x = false.

(** The [<li>] line of one marker line: the text after the marker,
    trimmed and formatted. *)
Definition list_item (prefix raw : str) : option str :=
  item_text <-
    parse_inline_formatting (strip (skipn (length prefix) (rstrip_nl raw))) ;;
  Some (lit "<li>" ++ item_text ++ lit "</li>").

Definition is_item (prefix raw : str) : bool :=
  startswith prefix (rstrip_nl raw).

Definition is_blank (raw : str) : bool :=
  negb (truthy (strip (rstrip_nl raw))).

(** The lines after the items do not go on with an item. *)
Definition ends_list (prefix : str) (rest : list str) : Prop :=
  match rest with
  | [] => True
  | raw :: _ => is_item prefix raw = false
  end.

(** How many lines the list takes from the lines after its items: the
    blank line that ends it, if one does. *)
Definition blank_consumed (rest : list str) : nat :=
  match rest with
  | raw :: _ => if is_blank raw then 1 else 0
  | [] => 0
  end.

(** A line of the shape [<li>...</li>]. *)
Definition is_li (line : str) : Prop :=
  exists text, line = lit "<li>" ++ text ++ lit "</li>".

(** The header test of the loop body. *)
Definition header_level (line : str) : nat :=
  length line - length (lstrip_hash line).

Definition is_header (line : str) : bool :=
  startswith (lit "#") line
  && ((1 <=? header_level line) && (header_level line <=? 6)
      && str_eqb (firstn 1 (skipn (header_level line) line)) (lit " ")).

(** A line that begins with [#] and fails the header test: the loop body
    sends it to the paragraph case, whose inner loop stops at once
    because the line begins with [#]. *)
Definition stalls (raw : str) : bool :=
  startswith (lit "#") (rstrip_nl raw) && negb (is_header (rstrip_nl raw)).

(** The state after [n] more rounds of the main loop. *)
Fixpoint rounds (n : nat) (lines : list str) (i : nat)
    (html_content : list str) : step :=
  match n with
  | O => Next i html_content
  | S n' =>
      match main_step lines i html_content with
      | Next i' html' => rounds n' lines i' html'
      | r => r
      end
  end.

(** The loop leaves the state [(i, html_content)] after finitely many
    rounds, by its exit test or by an exception. *)
Inductive halts (lines : list str) : nat -> list str -> Prop :=
| halts_exit i html :
    main_step lines i html = Exit -> halts lines i html
| halts_raise i html :
    main_step lines i html = Raise -> halts lines i html
| halts_next i html i' html' :
    main_step lines i html = Next i' html' ->
    halts lines i' html' -> halts lines i html.

(** The pattern [cc] that ends a span. *)
Definition closing (c : ascii) : regex := [Chr (ch c); Chr (ch c)].


(** Lines that UTF-8 can encode, as every line read from a UTF-8 file. *)
Definition encodable (lines : list str) : Prop :=
  forall raw, In raw lines -> forallb UTF8.scalar raw = true.

(** A document given by its lines, each ended by a newline as
    [readlines] returns them. *)
Definition document (text : list string) : list str :=
  map (fun l => lit l ++ [10%N]) text.

(** The stop test of the paragraph's inner loop: a blank line, a line
    that begins with [#], or one that begins a list. *)
Definition starts_block (raw : str) : bool :=
  negb (truthy (strip (rstrip_nl raw)))
  || startswith (lit "#") (rstrip_nl raw)
  || startswith (lit "- ") (rstrip_nl raw)
  || startswith (lit "* ") (rstrip_nl raw).

(** The lines after a paragraph do not go on with it. *)
Definition ends_paragraph (rest : list str) : Prop :=
  match rest with
  | [] => True
  | raw :: _ => starts_block raw = true
  end.

(** [a] is the beginning of [b]. *)
Definition prefix_of {A} (a b : list A) : Prop := exists more, b = a ++ more.

(** Text without a newline. *)
Definition newline_free (s : str) : Prop := ~ In 10%N s.

(** A line as [readlines] returns it: its newlines, if any, are at its
    end. *)
Definition read_line (raw : str) : Prop := newline_free (rstrip_nl raw).

(** * Properties *)

(** ** The digest against known values *)

Example md5_empty :
  md5_hash [] = Some (lit "d41d8cd98f00b204e9800998ecf8427e").
Proof. vm_compute. reflexivity. Qed.

Example md5_abc :
  md5_hash (lit "abc") = Some (lit "900150983cd24fb0d6963f7d28e17f72").
Proof. vm_compute. reflexivity. Qed.

Example md5_two_blocks :
  md5_hash (repeat (ch "x") 64)
  = Some (lit "c1bb4f81d892b2d57947682aeb252456").
Proof. vm_compute. reflexivity. Qed.

Example md5_120 :
  md5_hash (repeat (ch "x") 120)
  = Some (lit "fb98667f98096de92620b64f46e1c5b5").
Proof. vm_compute. reflexivity. Qed.

Example md5_55 :
  md5_hash (repeat (ch "x") 55)
  = Some (lit "04364420e25c512fd958a70738aa8f72").
Proof. vm_compute. reflexivity. Qed.

Example md5_56 :
  md5_hash (repeat (ch "x") 56)
  = Some (lit "668a72d5ba17f08e62dabcafad6db14b").
Proof. vm_compute. reflexivity. Qed.

(** "é€😀": two-, three- and four-byte encodings. *)
Example md5_non_ascii :
  md5_hash [233; 8364; 128512]%N
  = Some (lit "3b07a39fef0ac5d7ef21575e7315a482").
Proof. vm_compute. reflexivity. Qed.

Example md5_surrogate_raises : md5_hash [55296%N] = None.
Proof. reflexivity. Qed.

(** ** [re.sub] *)

Lemma bind_some {A B} (m : option A) (k : A -> option B) (b : B) :
  bind m k = Some b -> exists a, m = Some a /\ k a = Some b.
Proof. destruct m as [a|]; simpl; [eauto | discriminate]. Qed.

Lemma plus_not_shrinks (c : char) (k : str -> option match_result) (n : nat) :
  (forall s g rest, k s = Some (g, rest) -> length rest + n <= length s) ->
  forall s taken g rest,
    plus_not c k taken s = Some (g, rest) -> length rest + S n <= length s.
Proof.
  intros Hk; induction s as [|x s IH]; intros taken g rest H; simpl in H.
  - discriminate.
  - destruct (char_eqb x c); [discriminate|].
    destruct (plus_not c k (taken ++ [x]) s) as [[g1 r1]|] eqn:E.
    + inversion H; subst. apply IH in E. simpl; lia.
    + destruct (k s) as [[g2 r2]|] eqn:E2; [|discriminate].
      inversion H; subst. apply Hk in E2. simpl; lia.
Qed.

(** Every atom consumes at least one character. *)
Lemma match_here_shrinks (p : regex) :
  forall s g rest,
    match_here p s = Some (g, rest) -> length rest + length p <= length s.
Proof.
  induction p as [|a p IH]; intros s g rest H; simpl in H.
  - inversion H; subst; simpl; lia.
  - destruct a as [c|cs|c].
    + destruct s as [|x s]; [discriminate|].
      destruct (char_eqb x c); [|discriminate].
      apply IH in H. simpl; lia.
    + destruct s as [|x s]; [discriminate|].
      destruct (existsb (char_eqb x) cs); [|discriminate].
      apply IH in H. simpl; lia.
    + apply (plus_not_shrinks c (match_here p) (length p) IH) in H.
      simpl; lia.
Qed.

Section ReSub.

Variable p : regex.
Variable repl : str -> option str.
Hypothesis p_nonempty : p <> [].

Lemma match_here_shorter s g rest :
  match_here p s = Some (g, rest) -> length rest < length s.
Proof.
  intros H. apply match_here_shrinks in H.
  destruct p; [contradiction | simpl in H; lia].
Qed.

(** More fuel than the length of the subject changes nothing. *)
Lemma re_sub_from_fuel :
  forall n fuel1 fuel2 s,
    length s <= n -> length s <= fuel1 -> length s <= fuel2 ->
    re_sub_from fuel1 p repl s = re_sub_from fuel2 p repl s.
Proof.
  induction n as [|n IH]; intros fuel1 fuel2 s Hn H1 H2.
  - destruct s; [|simpl in Hn; lia].
    destruct fuel1, fuel2; reflexivity.
  - destruct s as [|x s]; [destruct fuel1, fuel2; reflexivity|].
    simpl in Hn, H1, H2.
    destruct fuel1 as [|f1]; [lia|]. destruct fuel2 as [|f2]; [lia|].
    simpl. destruct (match_here p (x :: s)) as [[g rest]|] eqn:E.
    + apply match_here_shorter in E. simpl in E.
      rewrite (IH f1 f2 rest) by lia. reflexivity.
    + rewrite (IH f1 f2 s) by lia. reflexivity.
Qed.

Lemma re_sub_nil : re_sub p repl [] = Some [].
Proof. reflexivity. Qed.

(** The defining equation of [re_sub], free of fuel. *)
Lemma re_sub_cons x s :
  re_sub p repl (x :: s) =
  match match_here p (x :: s) with
  | Some (g, rest) =>
      r <- repl g ;; t <- re_sub p repl rest ;; Some (r ++ t)
  | None => t <- re_sub p repl s ;; Some (x :: t)
  end.
Proof.
  unfold re_sub at 1. simpl.
  destruct (match_here p (x :: s)) as [[g rest]|] eqn:E.
  - apply match_here_shorter in E. simpl in E.
    rewrite (re_sub_from_fuel (length s) (length s) (length rest) rest)
      by lia.
    reflexivity.
  - reflexivity.
Qed.

(** Where the pattern matches nowhere, the subject is returned. *)
Lemma re_sub_no_match s :
  (forall pre t, s = pre ++ t -> match_here p t = None) ->
  re_sub p repl s = Some s.
Proof.
  induction s as [|x s IH]; intros H.
  - reflexivity.
  - rewrite re_sub_cons, (H [] (x :: s) eq_refl), IH; [reflexivity|].
    intros pre t ->. apply (H (x :: pre) t). reflexivity.
Qed.

End ReSub.

Lemma char_eqb_refl (x : char) : char_eqb x x = true.
Proof. apply N.eqb_refl. Qed.

Lemma char_eqb_eq (x y : char) : char_eqb x y = true <-> x = y.
Proof. apply N.eqb_eq. Qed.

Lemma char_eqb_neq (x y : char) : char_eqb x y = false <-> x <> y.
Proof. apply N.eqb_neq. Qed.

(** ** The patterns [oo([^c]+)cc] *)

(** Where a character that [post] does not hold occurs in [s ++ post]. *)
Lemma app_split_at (x : char) (post : str) :
  ~ In x post ->
  forall A s B,
    s ++ post = A ++ x :: B -> exists s', s = A ++ x :: s' /\ B = s' ++ post.
Proof.
  intros Hx. induction A as [|a A IH]; intros s B E.
  - destruct s as [|y s]; cbn [app] in E.
    + exfalso. apply Hx. rewrite E. left; reflexivity.
    + injection E as E1 E2. subst. exists s. auto.
  - destruct s as [|y s]; cbn [app] in E.
    + exfalso. apply Hx. rewrite E. right. apply in_or_app.
      right. left; reflexivity.
    + injection E as E1 E2. subst y.
      destruct (IH s B E2) as (s' & -> & ->). exists s'. auto.
Qed.

Section Delimited.

Variables o c : ascii.
Variable repl : str -> option str.

Lemma match_closing s g rest :
  match_here (closing c) s = Some (g, rest)
  <-> g = [] /\ s = ch c :: ch c :: rest.
Proof.
  unfold closing; simpl. split.
  - destruct s as [|x [|y s]]; try discriminate.
    + destruct (char_eqb x (ch c)); discriminate.
    + destruct (char_eqb x (ch c)) eqn:Ex; [|discriminate].
      destruct (char_eqb y (ch c)) eqn:Ey; [|discriminate].
      apply char_eqb_eq in Ex, Ey. intros H; inversion H; subst. auto.
  - intros [-> ->]. rewrite !char_eqb_refl. reflexivity.
Qed.

(** A non-empty run free of [c] and followed by [cc] is captured whole. *)
Lemma plus_not_hit :
  forall g taken rest,
    g <> [] -> ~ In (ch c) g ->
    plus_not (ch c) (match_here (closing c)) taken (g ++ ch c :: ch c :: rest)
    = Some (taken ++ g, rest).
Proof.
  induction g as [|x g IH]; intros taken rest Hne Hnin; [contradiction|].
  assert (Hx : char_eqb x (ch c) = false).
  { apply char_eqb_neq. intros ->. apply Hnin. left; reflexivity. }
  cbn [app plus_not]. rewrite Hx.
  destruct g as [|y g].
  - cbn [app plus_not]. rewrite char_eqb_refl.
    replace (match_here (closing c) (ch c :: ch c :: rest))
      with (Some (@nil char, rest))
      by (symmetry; apply match_closing; auto).
    reflexivity.
  - rewrite IH; [| discriminate | intros H; apply Hnin; right; exact H].
    rewrite <- app_assoc. reflexivity.
Qed.

(** Nothing else is captured. *)
Lemma plus_not_inv :
  forall s taken g rest,
    plus_not (ch c) (match_here (closing c)) taken s = Some (g, rest) ->
    exists g', g = taken ++ g' /\ g' <> [] /\ ~ In (ch c) g'
               /\ s = g' ++ ch c :: ch c :: rest.
Proof.
  induction s as [|x s IH]; intros taken g rest H; cbn [plus_not] in H.
  - discriminate.
  - destruct (char_eqb x (ch c)) eqn:Ex; [discriminate|].
    apply char_eqb_neq in Ex.
    destruct (plus_not (ch c) (match_here (closing c)) (taken ++ [x]) s)
      as [[g1 r1]|] eqn:E.
    + inversion H; subst. apply IH in E as (g' & -> & Hne & Hnin & ->).
      exists (x :: g'). rewrite <- app_assoc. repeat split.
      * discriminate.
      * intros [->|Hin]; [apply Ex; reflexivity | exact (Hnin Hin)].
    + destruct (match_here (closing c) s) as [[g2 r2]|] eqn:E2; [|discriminate].
      inversion H; subst. apply match_closing in E2 as [_ ->].
      exists [x]. repeat split.
      * discriminate.
      * intros [->|[]]. apply Ex; reflexivity.
Qed.

Lemma match_delimited_hit g rest :
  g <> [] -> ~ In (ch c) g ->
  match_here (delimited o c) (ch o :: ch o :: g ++ ch c :: ch c :: rest)
  = Some (g, rest).
Proof.
  intros Hne Hnin. unfold delimited. cbn [match_here].
  rewrite !char_eqb_refl. apply (plus_not_hit g [] rest Hne Hnin).
Qed.

Lemma match_delimited_inv s g rest :
  match_here (delimited o c) s = Some (g, rest) ->
  s = ch o :: ch o :: g ++ ch c :: ch c :: rest /\ g <> [] /\ ~ In (ch c) g.
Proof.
  unfold delimited. cbn [match_here]. intros H.
  destruct s as [|x [|y s]]; try discriminate.
  - destruct (char_eqb x (ch o)); discriminate.
  - destruct (char_eqb x (ch o)) eqn:Ex; [|discriminate].
    destruct (char_eqb y (ch o)) eqn:Ey; [|discriminate].
    apply char_eqb_eq in Ex, Ey; subst.
    apply plus_not_inv in H as (g' & -> & Hne & Hnin & ->).
    auto.
Qed.

Lemma delimited_nonempty : delimited o c <> [].
Proof. discriminate. Qed.

(** A match starts with the opening delimiter and holds a closing one. *)
Lemma match_delimited_none s :
  (forall s', s <> ch o :: ch o :: s') \/ ~ In (ch c) s ->
  match_here (delimited o c) s = None.
Proof.
  intros H. destruct (match_here (delimited o c) s) as [[g rest]|] eqn:E;
    [|reflexivity].
  apply match_delimited_inv in E as (-> & _ & _).
  destruct H as [H|H].
  - exfalso. apply (H _ eq_refl).
  - exfalso. apply H. right; right. apply in_or_app. right. left; reflexivity.
Qed.

(** One delimited span at the head of the subject. *)
Lemma re_sub_hit g rest :
  g <> [] -> ~ In (ch c) g ->
  re_sub (delimited o c) repl (ch o :: ch o :: g ++ ch c :: ch c :: rest)
  = (r <- repl g ;; t <- re_sub (delimited o c) repl rest ;; Some (r ++ t)).
Proof.
  intros Hne Hnin.
  rewrite (re_sub_cons _ repl delimited_nonempty).
  rewrite (match_delimited_hit g rest Hne Hnin). reflexivity.
Qed.

(** A character other than the opening one is copied. *)
Lemma re_sub_skip x s :
  x <> ch o ->
  re_sub (delimited o c) repl (x :: s)
  = (t <- re_sub (delimited o c) repl s ;; Some (x :: t)).
Proof.
  intros Hx. rewrite (re_sub_cons _ repl delimited_nonempty).
  rewrite match_delimited_none; [reflexivity|].
  left. intros s' H. inversion H. contradiction.
Qed.

Lemma re_sub_skip_app pre s :
  ~ In (ch o) pre ->
  re_sub (delimited o c) repl (pre ++ s)
  = (t <- re_sub (delimited o c) repl s ;; Some (pre ++ t)).
Proof.
  induction pre as [|x pre IH]; intros Hnin.
  - simpl. destruct (re_sub (delimited o c) repl s); reflexivity.
  - cbn [app]. rewrite re_sub_skip, IH.
    + destruct (re_sub (delimited o c) repl s); reflexivity.
    + intros H. apply Hnin. right; exact H.
    + intros ->. apply Hnin. left; reflexivity.
Qed.

(** Text without the opening character is left as it is. *)
Lemma re_sub_no_open s :
  ~ In (ch o) s -> re_sub (delimited o c) repl s = Some s.
Proof.
  intros Hnin. apply re_sub_no_match; [apply delimited_nonempty|].
  intros pre t ->. apply match_delimited_none. left.
  intros s' ->. apply Hnin. apply in_or_app. right. left; reflexivity.
Qed.

(** Text without the closing character is left as it is. *)
Lemma re_sub_no_close s :
  ~ In (ch c) s -> re_sub (delimited o c) repl s = Some s.
Proof.
  intros Hnin. apply re_sub_no_match; [apply delimited_nonempty|].
  intros pre t ->. apply match_delimited_none. right.
  intros H. apply Hnin. apply in_or_app. right; exact H.
Qed.

(** An empty span is no match, whatever follows. *)
Lemma match_delimited_empty rest :
  match_here (delimited o c) (ch o :: ch o :: ch c :: rest) = None.
Proof.
  unfold delimited. cbn [match_here plus_not].
  rewrite !char_eqb_refl. reflexivity.
Qed.


(** Text after the subject that holds no closing character takes no part
    in a match. *)
Lemma match_delimited_app s post :
  ~ In (ch c) post ->
  match_here (delimited o c) (s ++ post)
  = match match_here (delimited o c) s with
    | Some (g, rest) => Some (g, rest ++ post)
    | None => None
    end.
Proof.
  intros Hc. destruct (match_here (delimited o c) s) as [[g rest]|] eqn:M.
  - apply match_delimited_inv in M as (-> & Hne & Hnin).
    cbn [app]. rewrite <- app_assoc. cbn [app].
    apply match_delimited_hit; assumption.
  - destruct (match_here (delimited o c) (s ++ post)) as [[g rest']|] eqn:M';
      [exfalso | reflexivity].
    apply match_delimited_inv in M' as (E & Hne & Hnin).
    change (s ++ post = (ch o :: ch o :: g) ++ ch c :: ch c :: rest') in E.
    destruct (app_split_at (ch c) post Hc _ _ _ E) as (s1 & -> & E1).
    symmetry in E1. change (s1 ++ post = [] ++ ch c :: rest') in E1.
    destruct (app_split_at (ch c) post Hc _ _ _ E1) as (s2 & -> & _).
    cbn [app] in M. rewrite match_delimited_hit in M by assumption.
    discriminate M.
Qed.

Lemma re_sub_app_post post :
  ~ In (ch o) post -> ~ In (ch c) post ->
  forall n s,
    length s <= n ->
    re_sub (delimited o c) repl (s ++ post)
    = (t <- re_sub (delimited o c) repl s ;; Some (t ++ post)).
Proof.
  intros Ho Hc. induction n as [|n IH]; intros s Hn.
  - destruct s; [|simpl in Hn; lia]. cbn [app].
    rewrite re_sub_no_open by exact Ho. reflexivity.
  - destruct s as [|x s].
    + cbn [app]. rewrite re_sub_no_open by exact Ho. reflexivity.
    + simpl in Hn. rewrite (re_sub_cons _ repl delimited_nonempty x s).
      change ((x :: s) ++ post) with (x :: (s ++ post)).
      rewrite (re_sub_cons _ repl delimited_nonempty x (s ++ post)).
      change (x :: (s ++ post)) with ((x :: s) ++ post).
      rewrite match_delimited_app by exact Hc.
      destruct (match_here (delimited o c) (x :: s)) as [[g rest]|] eqn:M.
      * apply (match_here_shorter _ delimited_nonempty) in M. simpl in M.
        rewrite (IH rest) by lia.
        destruct (repl g) as [r|]; [cbn [bind]|reflexivity].
        destruct (re_sub (delimited o c) repl rest) as [t|];
          [cbn [bind]|reflexivity].
        rewrite app_assoc. reflexivity.
      * rewrite (IH s) by lia.
        destruct (re_sub (delimited o c) repl s) as [t|]; reflexivity.
Qed.

(** The characters of the result come from the subject or from the
    replacements. *)
Lemma re_sub_delimited_chars (P : char -> Prop) :
  (forall g r, repl g = Some r -> forall x, In x r -> P x) ->
  forall n s r,
    length s <= n ->
    (forall x, In x s -> P x) ->
    re_sub (delimited o c) repl s = Some r -> forall x, In x r -> P x.
Proof.
  intros Hrepl. induction n as [|n IH]; intros s r Hn Hs H x Hx.
  - destruct s; [|simpl in Hn; lia]. inversion H; subst. destruct Hx.
  - destruct s as [|y s]; [inversion H; subst; destruct Hx|].
    simpl in Hn. rewrite (re_sub_cons _ repl delimited_nonempty) in H.
    destruct (match_here (delimited o c) (y :: s)) as [[g rest]|] eqn:M.
    + pose proof (match_here_shorter _ delimited_nonempty _ _ _ M) as Hl.
      simpl in Hl.
      apply match_delimited_inv in M as (E & _ & _).
      apply bind_some in H as (r1 & Hr1 & H).
      apply bind_some in H as (t & Ht & H). inversion H; subst r.
      apply in_app_or in Hx as [Hx|Hx].
      * exact (Hrepl g r1 Hr1 x Hx).
      * apply (IH rest t) with (x := x); [lia | | exact Ht | exact Hx].
        intros z Hz. apply Hs. rewrite E. right; right.
        apply in_or_app. right. right; right; exact Hz.
    + apply bind_some in H as (t & Ht & H). inversion H; subst r.
      destruct Hx as [<-|Hx]; [apply Hs; left; reflexivity|].
      apply (IH s t) with (x := x); [lia | | exact Ht | exact Hx].
      intros z Hz. apply Hs. right; exact Hz.
Qed.

Lemma re_sub_delimited_nonempty s r :
  (forall g r', repl g = Some r' -> r' <> []) ->
  s <> [] -> re_sub (delimited o c) repl s = Some r -> r <> [].
Proof.
  intros Hrepl Hs H. destruct s as [|x s]; [contradiction|].
  rewrite (re_sub_cons _ repl delimited_nonempty) in H.
  destruct (match_here (delimited o c) (x :: s)) as [[g rest]|].
  - apply bind_some in H as (r1 & Hr1 & H).
    apply bind_some in H as (t & _ & H). inversion H; subst r.
    apply Hrepl in Hr1. destruct r1; [contradiction | discriminate].
  - apply bind_some in H as (t & _ & H). inversion H. discriminate.
Qed.

End Delimited.

(** ** Digests are 32 lowercase hexadecimal digits *)

Lemma hexdigit_lower_hex (d : N) :
  (d < 16)%N -> is_lower_hex (MD5.hexdigit d) = true.
Proof.
  intros Hd. unfold MD5.hexdigit, is_lower_hex.
  destruct (N.ltb_spec d 10).
  - apply orb_true_iff. left. apply andb_true_iff.
    split; apply N.leb_le; lia.
  - apply orb_true_iff. right. apply andb_true_iff.
    split; apply N.leb_le; lia.
Qed.

Lemma hex_of_bytes_lower_hex (bs : list N) :
  Forall (fun x => is_lower_hex x = true) (flat_map MD5.hex_of_byte bs).
Proof.
  induction bs as [|b bs IH]; simpl.
  - constructor.
  - constructor; [|constructor; [|exact IH]];
      apply hexdigit_lower_hex; apply N.mod_lt; discriminate.
Qed.

Lemma hex_of_bytes_length (bs : list N) :
  length (flat_map MD5.hex_of_byte bs) = 2 * length bs.
Proof. induction bs as [|b bs IH]; simpl; [reflexivity | rewrite IH; lia]. Qed.

Lemma digest_length (msg : list N) : length (MD5.digest msg) = 16.
Proof.
  unfold MD5.digest. cbv zeta. unfold MD5.le_bytes.
  rewrite !length_app, !length_map, !length_seq. reflexivity.
Qed.

Lemma hexdigest_length (msg : list N) : length (MD5.hexdigest msg) = 32.
Proof.
  unfold MD5.hexdigest. rewrite hex_of_bytes_length, digest_length.
  reflexivity.
Qed.

Lemma hexdigest_lower_hex (msg : list N) :
  Forall (fun x => is_lower_hex x = true) (MD5.hexdigest msg).
Proof. apply hex_of_bytes_lower_hex. Qed.

(** [md5_hash] raises only on text that UTF-8 cannot encode. *)
Lemma encode_scalar (s : str) :
  forallb UTF8.scalar s = true -> exists b, UTF8.encode s = Some b.
Proof.
  induction s as [|x s IH]; simpl; intros H.
  - eauto.
  - apply andb_true_iff in H as [Hx Hs]. destruct (IH Hs) as [b ->].
    assert (exists bx, UTF8.encode_char x = Some bx) as [bx ->].
    { unfold UTF8.encode_char, UTF8.scalar in *.
      destruct (N.ltb_spec x 128); [eauto|].
      destruct (N.ltb_spec x 2048); [eauto|].
      destruct (N.ltb_spec x 65536).
      - destruct (N.leb_spec 55296 x); destruct (N.ltb_spec x 57344);
          simpl in *; eauto.
        destruct (N.ltb_spec x 55296); [lia|].
        destruct (N.leb_spec 57344 x); [lia|]. discriminate.
      - destruct (N.ltb_spec x 1114112); [eauto|].
        destruct (N.ltb_spec x 55296); [lia|].
        destruct (N.leb_spec 57344 x); discriminate. }
    simpl. eauto.
Qed.

(** ** [remove_c_chars] deletes every [c] and [C] and nothing else *)

Lemma remove_c_chars_filter (text : str) :
  remove_c_chars text = Some (without_c text).
Proof.
  unfold remove_c_chars.
  induction text as [|x text IH].
  - reflexivity.
  - rewrite re_sub_cons by discriminate. cbn [match_here existsb].
    unfold without_c, is_c. cbn [filter]. rewrite orb_false_r.
    destruct (char_eqb x (ch "c") || char_eqb x (ch "C")).
    + rewrite IH. reflexivity.
    + rewrite IH. reflexivity.
Qed.

(** ** Text without opening delimiters passes through unchanged *)

Lemma parse_plain (s : str) : plain s -> parse_inline_formatting s = Some s.
Proof.
  intros (H1 & H2 & H3 & H4). unfold parse_inline_formatting.
  unfold hash_stage, no_c_stage, bold_stage, em_stage,
    re_hash, re_no_c, re_bold, re_em.
  rewrite re_sub_no_open by exact H1. cbn [bind].
  rewrite re_sub_no_open by exact H2. cbn [bind].
  rewrite re_sub_no_open by exact H3. cbn [bind].
  rewrite re_sub_no_open by exact H4. reflexivity.
Qed.

Lemma lower_hex_plain (s : str) :
  Forall (fun x => is_lower_hex x = true) s -> plain s.
Proof.
  intros H.
  assert (G : forall a, is_lower_hex (ch a) = false -> ~ In (ch a) s).
  { intros a Ha Hin. rewrite Forall_forall in H. apply H in Hin. congruence. }
  repeat split; apply G; reflexivity.
Qed.

(** ** The inline formatter on one delimited span *)

Lemma lit_hash_span (T : str) :
  lit "[[" ++ T ++ lit "]]" = ch "[" :: ch "[" :: T ++ ch "]" :: ch "]" :: [].
Proof. reflexivity. Qed.

Lemma lit_no_c_span (T : str) :
  lit "((" ++ T ++ lit "))" = ch "(" :: ch "(" :: T ++ ch ")" :: ch ")" :: [].
Proof. reflexivity. Qed.

(** The hash stage on a span, whatever follows it. *)
Lemma hash_stage_span (T rest : str) :
  T <> [] -> ~ In (ch "]") T ->
  hash_stage (ch "[" :: ch "[" :: T ++ ch "]" :: ch "]" :: rest)
  = (h <- md5_hash T ;; t <- hash_stage rest ;; Some (h ++ t)).
Proof. intros Hne Hnin. apply re_sub_hit; assumption. Qed.

Lemma md5_hash_lower_hex (T h : str) :
  md5_hash T = Some h ->
  length h = 32 /\ Forall (fun x => is_lower_hex x = true) h.
Proof.
  unfold md5_hash. intros H. apply bind_some in H as (b & _ & H).
  inversion H; subst. split; [apply hexdigest_length|apply hexdigest_lower_hex].
Qed.

(** A single hash span is replaced by its digest, and by nothing else. *)
Lemma parse_hash_span (T : str) :
  T <> [] -> ~ In (ch "]") T ->
  parse_inline_formatting (lit "[[" ++ T ++ lit "]]") = md5_hash T.
Proof.
  intros Hne Hnin. rewrite lit_hash_span.
  unfold parse_inline_formatting. rewrite hash_stage_span by assumption.
  destruct (md5_hash T) as [h|] eqn:E; [|reflexivity].
  cbn [bind]. unfold hash_stage at 1. rewrite re_sub_nil. cbn [bind].
  rewrite app_nil_r.
  destruct (lower_hex_plain h (proj2 (md5_hash_lower_hex T h E)))
    as (_ & H2 & H3 & H4).
  unfold no_c_stage, bold_stage, em_stage, re_no_c, re_bold, re_em.
  rewrite re_sub_no_open by exact H2. cbn [bind].
  rewrite re_sub_no_open by exact H3. cbn [bind].
  rewrite re_sub_no_open by exact H4. reflexivity.
Qed.

(** C3 as the specification words it fails: a text with a single [']']
    contains no closing delimiter, yet the span is not replaced; and the
    empty text is not replaced by the digest of the empty string. *)
Lemma hash_directive_single_bracket :
  contains (lit "]]") (lit "a]b") = false
  /\ parse_inline_formatting (lit "[[" ++ lit "a]b" ++ lit "]]")
     = Some (lit "[[a]b]]")
  /\ parse_inline_formatting (lit "[[" ++ lit "a]b" ++ lit "]]")
     <> md5_hash (lit "a]b")
  /\ contains (lit "]]") [] = false
  /\ parse_inline_formatting (lit "[[" ++ [] ++ lit "]]") = Some (lit "[[]]")
  /\ parse_inline_formatting (lit "[[" ++ [] ++ lit "]]") <> md5_hash [].
Proof. vm_compute. repeat split; discriminate. Qed.

(** C3 (amended): for every non-empty text [T] without the character
    [']'], formatting ["[[" + T + "]]"] yields [md5_hash T], the 32
    lowercase hexadecimal digits of the MD5 digest of [T]'s UTF-8 bytes;
    the span ends at the first [']'], so text after the closing delimiter
    is not part of it. *)
Theorem hash_directive_digest (T : str) :
  T <> [] -> ~ In (ch "]") T ->
  parse_inline_formatting (lit "[[" ++ T ++ lit "]]") = md5_hash T
  /\ (forallb UTF8.scalar T = true ->
      exists b, UTF8.encode T = Some b
        /\ parse_inline_formatting (lit "[[" ++ T ++ lit "]]")
           = Some (MD5.hexdigest b)
        /\ length (MD5.hexdigest b) = 32
        /\ Forall (fun x => is_lower_hex x = true) (MD5.hexdigest b))
  /\ (forall rest,
      hash_stage (lit "[[" ++ T ++ lit "]]" ++ rest)
      = (h <- md5_hash T ;; t <- hash_stage rest ;; Some (h ++ t))).
Proof.
  intros Hne Hnin. split; [|split].
  - apply parse_hash_span; assumption.
  - intros Hs. destruct (encode_scalar T Hs) as [b Hb]. exists b.
    rewrite parse_hash_span by assumption. unfold md5_hash. rewrite Hb.
    split; [reflexivity|]. split; [reflexivity|].
    split; [apply hexdigest_length | apply hexdigest_lower_hex].
  - intros rest. apply hash_stage_span; assumption.
Qed.

Lemma hash_directive_digest_witness :
  lit "ab" <> [] /\ ~ In (ch "]") (lit "ab")
  /\ parse_inline_formatting (lit "[[" ++ lit "ab" ++ lit "]]")
     = md5_hash (lit "ab").
Proof.
  assert (H1 : lit "ab" <> []) by discriminate.
  assert (H2 : ~ In (ch "]") (lit "ab")).
  { intros [H|[H|[]]]; discriminate H. }
  split; [exact H1|]. split; [exact H2|].
  exact (proj1 (hash_directive_digest (lit "ab") H1 H2)).
Defined.

(** C4 as the specification words it fails: with a [']'] in the text the
    span is not hashed, and what is left can hold a span that only the
    second run rewrites. *)
Lemma rerun_rewrites_nested_span :
  contains (lit "]]") (lit "]((((a))b))") = false
  /\ parse_inline_formatting (lit "[[" ++ lit "]((((a))b))" ++ lit "]]")
     = Some (lit "[[]((ab))]]")
  /\ parse_inline_formatting (lit "[[]((ab))]]") = Some (lit "[[]ab]]")
  /\ (r <- parse_inline_formatting
             (lit "[[" ++ lit "]((((a))b))" ++ lit "]]") ;;
      parse_inline_formatting r)
     <> parse_inline_formatting (lit "[[" ++ lit "]((((a))b))" ++ lit "]]").
Proof. vm_compute. repeat split; discriminate. Qed.

(** C4 (amended): for every non-empty text [T] without the character
    [']'], the result of formatting ["[[" + T + "]]"] consists of
    hexadecimal digits only, so it holds no delimiter, and formatting it
    a second time leaves it unchanged. *)
Theorem hash_output_idempotent (T : str) :
  T <> [] -> ~ In (ch "]") T ->
  (r <- parse_inline_formatting (lit "[[" ++ T ++ lit "]]") ;;
   parse_inline_formatting r)
  = parse_inline_formatting (lit "[[" ++ T ++ lit "]]")
  /\ (forall r,
      parse_inline_formatting (lit "[[" ++ T ++ lit "]]") = Some r ->
      Forall (fun x => is_lower_hex x = true) r
      /\ parse_inline_formatting r = Some r)
  /\ (forallb UTF8.scalar T = true ->
      exists r,
        parse_inline_formatting (lit "[[" ++ T ++ lit "]]") = Some r
        /\ parse_inline_formatting r = Some r).
Proof.
  intros Hne Hnin. rewrite parse_hash_span by assumption.
  assert (G : forall r, md5_hash T = Some r ->
                        Forall (fun x => is_lower_hex x = true) r
                        /\ parse_inline_formatting r = Some r).
  { intros r Hr. apply md5_hash_lower_hex in Hr as [_ Hr].
    split; [exact Hr|]. apply parse_plain, lower_hex_plain, Hr. }
  split; [|split].
  - destruct (md5_hash T) as [h|] eqn:E; [|reflexivity].
    cbn [bind]. apply (G h eq_refl).
  - exact G.
  - intros Hs. destruct (encode_scalar T Hs) as [b Hb].
    exists (MD5.hexdigest b).
    assert (E : md5_hash T = Some (MD5.hexdigest b))
      by (unfold md5_hash; rewrite Hb; reflexivity).
    split; [exact E | apply (G _ E)].
Qed.

Lemma hash_output_idempotent_witness :
  lit "Hello" <> [] /\ ~ In (ch "]") (lit "Hello")
  /\ (r <- parse_inline_formatting (lit "[[" ++ lit "Hello" ++ lit "]]") ;;
      parse_inline_formatting r)
     = parse_inline_formatting (lit "[[" ++ lit "Hello" ++ lit "]]").
Proof.
  assert (H1 : lit "Hello" <> []) by discriminate.
  assert (H2 : ~ In (ch "]") (lit "Hello")).
  { cbv. intros H. repeat (destruct H as [H|H]; [discriminate H|]). exact H. }
  split; [exact H1|]. split; [exact H2|].
  exact (proj1 (hash_output_idempotent (lit "Hello") H1 H2)).
Defined.

(** C5 as the specification words it fails: the hash stage runs first, so
    a hash span inside the text is replaced before the characters are
    removed (and the digest loses its [c]s); and the empty text is no
    span at all. *)
Lemma no_c_directive_after_hash :
  contains (lit ")") (lit "[[x]]") = false
  /\ parse_inline_formatting (lit "((" ++ lit "[[x]]" ++ lit "))")
     = Some (lit "9dd4e4612688034f58564e15567a6")
  /\ without_c (lit "[[x]]") = lit "[[x]]"
  /\ parse_inline_formatting (lit "((" ++ lit "[[x]]" ++ lit "))")
     <> Some (without_c (lit "[[x]]"))
  /\ parse_inline_formatting (lit "((" ++ [] ++ lit "))") = Some (lit "(())")
  /\ parse_inline_formatting (lit "((" ++ [] ++ lit "))")
     <> Some (without_c []).
Proof. vm_compute. repeat split; discriminate. Qed.

Lemma in_without_c (x : char) (T : str) : In x (without_c T) -> In x T.
Proof. unfold without_c. intros H. apply filter_In in H. tauto. Qed.

(** The hash stage looks inside the parentheses only. *)
Lemma hash_stage_in_parentheses (T : str) :
  hash_stage (ch "(" :: ch "(" :: T ++ ch ")" :: ch ")" :: [])
  = (h <- hash_stage T ;;
     Some (ch "(" :: ch "(" :: h ++ ch ")" :: ch ")" :: [])).
Proof.
  unfold hash_stage, re_hash.
  change (ch "(" :: ch "(" :: T ++ [ch ")"; ch ")"])
    with ([ch "("; ch "("] ++ (T ++ [ch ")"; ch ")"])).
  rewrite re_sub_skip_app by (intros [H|[H|[]]]; discriminate H).
  rewrite (re_sub_app_post "[" "]" md5_hash [ch ")"; ch ")"])
    with (n := length T);
    [ | intros [H|[H|[]]]; discriminate H
      | intros [H|[H|[]]]; discriminate H | lia ].
  destruct (re_sub (delimited "[" "]") md5_hash T); reflexivity.
Qed.

(** What the hash stage returns holds a [')'] only where its subject
    does, and is empty only if its subject is. *)
Lemma hash_stage_keeps_span (T h : str) :
  T <> [] -> ~ In (ch ")") T -> hash_stage T = Some h ->
  h <> [] /\ ~ In (ch ")") h.
Proof.
  intros Hne Hnin H. unfold hash_stage, re_hash in H. split.
  - apply (re_sub_delimited_nonempty "[" "]" md5_hash T h);
      [|exact Hne|exact H].
    intros g r Hr ->. apply md5_hash_lower_hex in Hr as [Hl _]. discriminate Hl.
  - intros Hin.
    apply (re_sub_delimited_chars "[" "]" md5_hash (fun x => x <> ch ")")
             ) with (n := length T) (s := T) (r := h) (x := ch ")");
      [ | lia | | exact H | exact Hin | reflexivity ].
    + intros g r Hr x Hx ->. apply md5_hash_lower_hex in Hr as [_ Hr].
      rewrite Forall_forall in Hr. apply Hr in Hx. discriminate Hx.
    + intros x Hx ->. exact (Hnin Hx).
Qed.

(** C5 (amended): for every non-empty text [T] that contains no [')'],
    formatting ["((" + T + "))"] yields the text between the delimiters
    as the hash stage leaves it, with every [c] and [C] removed and every
    other character kept in order, passed on to the bold and emphasis
    stages.  When no other stage finds a span (so when [T] holds none of
    ['['], ['*'] and ['_']) that is [T] with every [c] and [C] removed. *)
Theorem no_c_directive (T : str) :
  T <> [] -> ~ In (ch ")") T ->
  parse_inline_formatting (lit "((" ++ T ++ lit "))")
  = (h <- hash_stage T ;; b <- bold_stage (without_c h) ;; em_stage b)
  /\ (hash_stage T = Some T ->
      bold_stage (without_c T) = Some (without_c T) ->
      em_stage (without_c T) = Some (without_c T) ->
      parse_inline_formatting (lit "((" ++ T ++ lit "))")
      = Some (without_c T))
  /\ (~ In (ch "[") T -> ~ In (ch "*") T -> ~ In (ch "_") T ->
      parse_inline_formatting (lit "((" ++ T ++ lit "))")
      = Some (without_c T))
  /\ remove_c_chars T = Some (filter (fun x => negb (is_c x)) T).
Proof.
  intros Hne Hclose.
  assert (G : parse_inline_formatting (lit "((" ++ T ++ lit "))")
              = (h <- hash_stage T ;; b <- bold_stage (without_c h) ;;
                 em_stage b)).
  { rewrite lit_no_c_span. unfold parse_inline_formatting.
    rewrite hash_stage_in_parentheses.
    destruct (hash_stage T) as [h|] eqn:EH; [cbn [bind]|reflexivity].
    destruct (hash_stage_keeps_span T h Hne Hclose EH) as [Hh1 Hh2].
    unfold no_c_stage, re_no_c. rewrite re_sub_hit by assumption.
    rewrite remove_c_chars_filter. cbn [bind].
    rewrite re_sub_nil. cbn [bind]. rewrite app_nil_r.
    destruct (bold_stage (without_c h)) as [b|]; [cbn [bind]|reflexivity].
    destruct (em_stage b); reflexivity. }
  split; [exact G|]. split; [|split; [|apply remove_c_chars_filter]].
  - intros H1 H2 H3. rewrite G, H1. cbn [bind]. rewrite H2. exact H3.
  - intros Hh Hb He. rewrite G. unfold hash_stage, bold_stage, em_stage,
      re_hash, re_bold, re_em.
    rewrite re_sub_no_open by exact Hh. cbn [bind].
    rewrite re_sub_no_open by (intros H; apply Hb, in_without_c, H).
    cbn [bind].
    rewrite re_sub_no_open by (intros H; apply He, in_without_c, H).
    reflexivity.
Qed.

Lemma no_c_directive_witness :
  lit "Chicago  cC x" <> [] /\ ~ In (ch ")") (lit "Chicago  cC x")
  /\ parse_inline_formatting (lit "((" ++ lit "Chicago  cC x" ++ lit "))")
     = Some (lit "hiago   x").
Proof.
  assert (H1 : lit "Chicago  cC x" <> []) by discriminate.
  assert (N : forall a, forallb (fun x => negb (char_eqb x (ch a)))
                          (lit "Chicago  cC x") = true ->
                        ~ In (ch a) (lit "Chicago  cC x")).
  { intros a Ha Hin. rewrite forallb_forall in Ha. apply Ha in Hin.
    rewrite char_eqb_refl in Hin. discriminate. }
  split; [exact H1|]. split; [exact (N ")"%char eq_refl)|].
  destruct (no_c_directive (lit "Chicago  cC x") H1 (N ")"%char eq_refl))
    as (_ & _ & H & _).
  exact (H (N "["%char eq_refl) (N "*"%char eq_refl) (N "_"%char eq_refl)).
Defined.

(** ** Empty spans *)

Lemma delimiter_free_not_in (a : ascii) (s : str) :
  is_delimiter (ch a) = true -> delimiter_free s -> ~ In (ch a) s.
Proof. intros Ha Hs Hin. apply Hs in Hin. congruence. Qed.

Section EmptySpan.

Variables o c : ascii.
Variable repl : str -> option str.
Variables pre post : str.
Hypothesis pre_free : delimiter_free pre.
Hypothesis post_free : delimiter_free post.



End EmptySpan.




(** Inside a larger span the same four characters are part of that
    span's text. *)
Example empty_span_inside_span :
  parse_inline_formatting (lit "[[[[]]") = md5_hash (lit "[[").
Proof. vm_compute. reflexivity. Qed.

(** ** Exceptions come from text that UTF-8 cannot encode *)

Lemma dropwhile_incl (f : char -> bool) (s : str) (x : char) :
  In x (dropwhile f s) -> In x s.
Proof.
  induction s as [|y s IH]; simpl; [tauto|].
  destruct (f y); simpl; tauto.
Qed.

Lemma rstrip_by_incl (f : char -> bool) (s : str) (x : char) :
  In x (rstrip_by f s) -> In x s.
Proof.
  unfold rstrip_by. intros H. apply in_rev in H. apply dropwhile_incl in H.
  apply in_rev. exact H.
Qed.

Lemma strip_incl (s : str) (x : char) : In x (strip s) -> In x s.
Proof.
  unfold strip, lstrip_by. intros H.
  apply rstrip_by_incl, dropwhile_incl in H. exact H.
Qed.

Lemma skipn_incl {A} (n : nat) (l : list A) (x : A) :
  In x (skipn n l) -> In x l.
Proof.
  intros H. rewrite <- (firstn_skipn n l). apply in_or_app. right; exact H.
Qed.

Lemma scalar_incl (g s : str) :
  (forall x, In x g -> In x s) ->
  forallb UTF8.scalar s = true -> forallb UTF8.scalar g = true.
Proof.
  intros Hin Hs. apply forallb_forall. intros x Hx.
  rewrite forallb_forall in Hs. apply Hs, Hin, Hx.
Qed.

Lemma md5_hash_scalar (s : str) :
  forallb UTF8.scalar s = true -> md5_hash s <> None.
Proof.
  intros H. destruct (encode_scalar s H) as [b Hb].
  unfold md5_hash. rewrite Hb. discriminate.
Qed.

(** [re.sub] raises only if the replacement function does. *)
Lemma re_sub_from_raises (p : regex) (repl : str -> option str)
    (ok : str -> Prop) :
  (forall g, ok g -> repl g <> None) ->
  (forall s g rest,
     ok s -> match_here p s = Some (g, rest) -> ok g /\ ok rest) ->
  (forall x s, ok (x :: s) -> ok s) ->
  forall fuel s, ok s -> re_sub_from fuel p repl s <> None.
Proof.
  intros Hrepl Hmatch Htail.
  induction fuel as [|fuel IH]; intros s Hs; destruct s as [|x s]; simpl;
    try discriminate.
  destruct (match_here p (x :: s)) as [[g rest]|] eqn:E.
  - destruct (Hmatch _ _ _ Hs E) as [Hg Hrest].
    destruct (repl g) as [r|] eqn:Er; [|exfalso; exact (Hrepl g Hg Er)].
    cbn [bind].
    destruct (re_sub_from fuel p repl rest) as [t|] eqn:Et;
      [discriminate | exfalso; exact (IH rest Hrest Et)].
  - destruct (re_sub_from fuel p repl s) as [t|] eqn:Et;
      [discriminate | exfalso; exact (IH s (Htail _ _ Hs) Et)].
Qed.

Lemma re_sub_total (p : regex) (repl : str -> option str) (s : str) :
  (forall g, repl g <> None) -> re_sub p repl s <> None.
Proof.
  intros H. unfold re_sub.
  apply (re_sub_from_raises p repl (fun _ => True)); auto.
Qed.

Lemma remove_c_chars_total (g : str) : remove_c_chars g <> None.
Proof. rewrite remove_c_chars_filter. discriminate. Qed.

Lemma template_total (pre post g : str) : template pre post g <> None.
Proof. discriminate. Qed.

Lemma hash_stage_scalar (s : str) :
  forallb UTF8.scalar s = true -> hash_stage s <> None.
Proof.
  intros Hs. unfold hash_stage, re_sub.
  apply (re_sub_from_raises re_hash md5_hash
           (fun t => forallb UTF8.scalar t = true)).
  - apply md5_hash_scalar.
  - intros t g rest Ht M. apply match_delimited_inv in M as (-> & _ & _).
    split; apply (scalar_incl _ _) with (2 := Ht); intros x Hx.
    + right; right. apply in_or_app. left; exact Hx.
    + right; right. apply in_or_app. right. right; right; exact Hx.
  - intros x t Ht. simpl in Ht. apply andb_true_iff in Ht. tauto.
  - exact Hs.
Qed.

(** The formatter returns on every text read from a UTF-8 file. *)
Lemma parse_scalar (s : str) :
  forallb UTF8.scalar s = true -> parse_inline_formatting s <> None.
Proof.
  intros Hs. unfold parse_inline_formatting.
  destruct (hash_stage s) as [l1|] eqn:E1;
    [cbn [bind] | exfalso; exact (hash_stage_scalar s Hs E1)].
  destruct (no_c_stage l1) as [l2|] eqn:E2;
    [cbn [bind]
    | exfalso; exact (re_sub_total _ _ _ remove_c_chars_total E2)].
  destruct (bold_stage l2) as [l3|] eqn:E3;
    [cbn [bind]
    | exfalso; exact (re_sub_total _ _ _ (template_total _ _) E3)].
  destruct (em_stage l3) as [l4|] eqn:E4;
    [discriminate
    | exfalso; exact (re_sub_total _ _ _ (template_total _ _) E4)].
Qed.

Lemma parse_raises (s : str) :
  parse_inline_formatting s = None -> forallb UTF8.scalar s = false.
Proof.
  intros H. destruct (forallb UTF8.scalar s) eqn:E; [|reflexivity].
  exfalso. exact (parse_scalar s E H).
Qed.

Example parse_raises_on_surrogate :
  parse_inline_formatting (lit "[[" ++ [55296%N] ++ lit "]]") = None.
Proof. reflexivity. Qed.

(** ** List blocks *)

Lemma skipn_app_length {A} (pre l : list A) : skipn (length pre) (pre ++ l) = l.
Proof. induction pre as [|x pre IH]; simpl; [reflexivity | exact IH]. Qed.

Lemma list_loop_items (prefix : str) (rest : list str) :
  ends_list prefix rest ->
  forall items i list_content,
    Forall (fun raw => is_item prefix raw = true) items ->
    list_loop prefix (items ++ rest) i list_content
    = (lis <- mapM (list_item prefix) items ;;
       Some (list_content ++ lis, i + length items + blank_consumed rest)).
Proof.
  intros Hend. induction items as [|raw items IH]; intros i acc Hitems.
  - cbn [app mapM bind length]. rewrite app_nil_r, Nat.add_0_r.
    destruct rest as [|raw rest]; simpl.
    + rewrite Nat.add_0_r. reflexivity.
    + unfold ends_list, is_item in Hend. rewrite Hend.
      unfold is_blank. destruct (negb (truthy (strip (rstrip_nl raw)))).
      * rewrite Nat.add_1_r. reflexivity.
      * rewrite Nat.add_0_r. reflexivity.
  - inversion Hitems as [|? ? Hraw Hitems']; subst.
    cbn [app list_loop mapM]. unfold is_item in Hraw. rewrite Hraw.
    unfold list_item at 1.
    destruct (parse_inline_formatting
                (strip (skipn (length prefix) (rstrip_nl raw))))
      as [item_text|]; [|reflexivity].
    cbn [bind]. rewrite IH by exact Hitems'.
    destruct (mapM (list_item prefix) items) as [lis|]; [|reflexivity].
    cbn [bind length]. rewrite <- app_assoc. cbn [app].
    f_equal. f_equal. lia.
Qed.

(** The items of a list are the longest run of marker lines. *)
Lemma split_items (prefix : str) (rest : list str) :
  exists items rest',
    rest = items ++ rest'
    /\ Forall (fun raw => is_item prefix raw = true) items
    /\ ends_list prefix rest'.
Proof.
  induction rest as [|raw rest (items & rest' & -> & Hitems & Hend)].
  - exists [], []. repeat split. constructor.
  - destruct (is_item prefix raw) eqn:E.
    + exists (raw :: items), rest'. repeat split; [|exact Hend].
      constructor; assumption.
    + exists [], (raw :: items ++ rest'). repeat split; [constructor|exact E].
Qed.

Lemma mapM_length {A B} (f : A -> option B) (l : list A) (r : list B) :
  mapM f l = Some r -> length r = length l.
Proof.
  revert r. induction l as [|a l IH]; intros r H; simpl in H.
  - inversion H; reflexivity.
  - apply bind_some in H as (b & _ & H).
    apply bind_some in H as (bs & Hbs & H). inversion H; subst.
    simpl. rewrite (IH bs Hbs). reflexivity.
Qed.

Lemma mapM_forall {A B} (f : A -> option B) (P : B -> Prop) (l : list A)
    (r : list B) :
  (forall a b, f a = Some b -> P b) -> mapM f l = Some r -> Forall P r.
Proof.
  intros Hf. revert r. induction l as [|a l IH]; intros r H; simpl in H.
  - inversion H; constructor.
  - apply bind_some in H as (b & Hb & H).
    apply bind_some in H as (bs & Hbs & H). inversion H; subst.
    constructor; [exact (Hf a b Hb) | exact (IH bs Hbs)].
Qed.

Lemma mapM_none {A B} (f : A -> option B) (l : list A) :
  mapM f l = None -> exists a, In a l /\ f a = None.
Proof.
  induction l as [|a l IH]; simpl; intros H; [discriminate|].
  destruct (f a) as [b|] eqn:E; [|exists a; auto].
  cbn [bind] in H. destruct (mapM f l) as [bs|]; [discriminate|].
  destruct (IH eq_refl) as (a' & Hin & Ha'). exists a'. auto.
Qed.

Lemma list_item_raises (prefix raw : str) :
  list_item prefix raw = None -> forallb UTF8.scalar raw = false.
Proof.
  unfold list_item. intros H.
  destruct (parse_inline_formatting
              (strip (skipn (length prefix) (rstrip_nl raw)))) eqn:E;
    [discriminate|].
  apply parse_raises in E.
  destruct (forallb UTF8.scalar raw) eqn:Hraw; [|reflexivity].
  rewrite (scalar_incl _ raw) in E; [discriminate | | exact Hraw].
  intros x Hx. apply strip_incl, skipn_incl, rstrip_by_incl in Hx. exact Hx.
Qed.

(** [process_list_block] started at the first of a run of marker lines. *)
Lemma process_list_block_items (pre items rest : list str)
    (list_char list_tag : str) :
  Forall (fun raw => is_item (list_char ++ lit " ") raw = true) items ->
  ends_list (list_char ++ lit " ") rest ->
  process_list_block (pre ++ items ++ rest) (length pre) list_char list_tag
  = (lis <- mapM (list_item (list_char ++ lit " ")) items ;;
     Some ([lit "<" ++ list_tag ++ lit ">"] ++ lis
             ++ [lit "</" ++ list_tag ++ lit ">"],
           length pre + length items + blank_consumed rest)).
Proof.
  intros Hitems Hend. unfold process_list_block.
  rewrite skipn_app_length, (list_loop_items _ rest Hend) by exact Hitems.
  destruct (mapM (list_item (list_char ++ lit " ")) items) as [lis|];
    [|reflexivity].
  cbn [bind fst snd]. rewrite <- app_assoc. reflexivity.
Qed.

(** C8: in [process_list_block], started at the first of a run of marker
    lines, every marker line gives one [<li>] line holding its text after
    the marker, trimmed and formatted, between the open and the close
    tag; a blank line after the run is consumed with the list, any other
    line (or the end of the document) is left where it is.  It holds for
    the marker ["- "] with [<ul>] and for ["* "] with [<ol>] alike. *)
Theorem list_block_collects (pre items rest : list str)
    (list_char list_tag : str) :
  Forall (fun raw => is_item (list_char ++ lit " ") raw = true) items ->
  ends_list (list_char ++ lit " ") rest ->
  process_list_block (pre ++ items ++ rest) (length pre) list_char list_tag
  = (lis <- mapM (list_item (list_char ++ lit " ")) items ;;
     Some ([lit "<" ++ list_tag ++ lit ">"] ++ lis
             ++ [lit "</" ++ list_tag ++ lit ">"],
           length pre + length items + blank_consumed rest))
  /\ (forall lis,
        mapM (list_item (list_char ++ lit " ")) items = Some lis ->
        length lis = length items)
  /\ (rest = [] -> blank_consumed rest = 0)
  /\ (forall raw tl,
        rest = raw :: tl ->
        blank_consumed rest
        = if negb (truthy (strip (rstrip_nl raw))) then 1 else 0).
Proof.
  intros Hitems Hend. split; [|split; [|split]].
  - apply process_list_block_items; assumption.
  - intros lis. apply mapM_length.
  - intros ->. reflexivity.
  - intros raw tl ->. reflexivity.
Qed.

Lemma list_block_collects_witness :
  Forall (fun raw => is_item (lit "-" ++ lit " ") raw = true)
    [lit "- Apple" ++ [10%N]; lit "-   **Banana** " ++ [10%N]]
  /\ ends_list (lit "-" ++ lit " ") [[10%N]; lit "* First"]
  /\ process_list_block
       ([lit "intro" ++ [10%N]]
          ++ [lit "- Apple" ++ [10%N]; lit "-   **Banana** " ++ [10%N]]
          ++ [[10%N]; lit "* First"])
       1 (lit "-") (lit "ul")
     = Some ([lit "<ul>"; lit "<li>Apple</li>"; lit "<li><b>Banana</b></li>";
              lit "</ul>"], 4).
Proof.
  assert (H1 : Forall (fun raw => is_item (lit "-" ++ lit " ") raw = true)
                 [lit "- Apple" ++ [10%N]; lit "-   **Banana** " ++ [10%N]])
    by (repeat constructor).
  assert (H2 : ends_list (lit "-" ++ lit " ") [[10%N]; lit "* First"])
    by reflexivity.
  split; [exact H1|]. split; [exact H2|].
  exact (proj1 (list_block_collects [lit "intro" ++ [10%N]] _ _
                  (lit "-") (lit "ul") H1 H2)).
Defined.

Lemma list_item_is_li (prefix raw line : str) :
  list_item prefix raw = Some line -> is_li line.
Proof.
  unfold list_item. intros H. apply bind_some in H as (text & _ & H).
  inversion H. exists text. reflexivity.
Qed.

Lemma nth_error_skipn {A} (l : list A) (n : nat) (a : A) :
  nth_error l n = Some a ->
  exists tl, skipn n l = a :: tl /\ l = firstn n l ++ a :: tl
             /\ length (firstn n l) = n.
Proof.
  revert l. induction n as [|n IH]; intros [|x l] H; try discriminate.
  - inversion H; subst. exists l. auto.
  - simpl in H. destruct (IH l H) as (tl & H1 & H2 & H3).
    exists tl. simpl. rewrite H1, H3. split; [reflexivity|].
    split; [f_equal; exact H2 | reflexivity].
Qed.

Lemma blank_consumed_le (rest : list str) : blank_consumed rest <= length rest.
Proof.
  destruct rest as [|raw rest]; simpl; [lia|]. destruct (is_blank raw); lia.
Qed.

(** C10: when the line at the start index begins with the marker and a
    space, [process_list_block] returns a fragment that is the open tag,
    at least one [<li>...</li>] line and the matching close tag, in that
    order, and an index beyond the start index (and within the document).
    The only other outcome is the exception of [md5_hash], on a marker
    line whose text UTF-8 cannot encode. *)
Theorem list_block_well_formed (lines : list str) (start_index : nat)
    (list_char list_tag raw : str) :
  nth_error lines start_index = Some raw ->
  startswith (list_char ++ lit " ") (rstrip_nl raw) = true ->
  (exists items next_i,
      process_list_block lines start_index list_char list_tag
      = Some ([lit "<" ++ list_tag ++ lit ">"] ++ items
                ++ [lit "</" ++ list_tag ++ lit ">"], next_i)
      /\ items <> [] /\ Forall is_li items
      /\ start_index < next_i <= length lines)
  \/ (process_list_block lines start_index list_char list_tag = None
      /\ exists l, In l lines /\ forallb UTF8.scalar l = false).
Proof.
  intros Hnth Hstart.
  destruct (nth_error_skipn lines start_index raw Hnth)
    as (tl & Hskip & Hlines & Hlen).
  destruct (split_items (list_char ++ lit " ") (raw :: tl))
    as (items & rest & Hsplit & Hitems & Hend).
  assert (Hne : items <> []).
  { intros ->. simpl in Hsplit. subst rest.
    unfold ends_list, is_item in Hend. congruence. }
  assert (E : lines = firstn start_index lines ++ items ++ rest)
    by (rewrite <- Hsplit; exact Hlines).
  pose proof (process_list_block_items (firstn start_index lines) items rest
                list_char list_tag Hitems Hend) as P.
  rewrite <- E, Hlen in P. rewrite P.
  destruct (mapM (list_item (list_char ++ lit " ")) items) as [lis|] eqn:M.
  - left. exists lis, (start_index + length items + blank_consumed rest).
    split; [reflexivity|]. split; [|split].
    + intros ->. apply mapM_length in M. destruct items; [auto|discriminate].
    + apply (mapM_forall _ _ _ _ (list_item_is_li _) M).
    + pose proof (blank_consumed_le rest).
      assert (length lines = start_index + length items + length rest).
      { rewrite E at 1. rewrite !length_app, Hlen. lia. }
      assert (0 < length items) by (destruct items; [contradiction|simpl; lia]).
      lia.
  - right. split; [reflexivity|].
    destruct (mapM_none _ _ M) as (l & Hin & Hl).
    exists l. split; [|exact (list_item_raises _ _ Hl)].
    rewrite E. apply in_or_app. right. apply in_or_app. left; exact Hin.
Qed.

Lemma list_block_well_formed_witness :
  nth_error [lit "* First" ++ [10%N]; lit "* Second" ++ [10%N]; lit "text"] 0
  = Some (lit "* First" ++ [10%N])
  /\ startswith (lit "*" ++ lit " ") (rstrip_nl (lit "* First" ++ [10%N]))
     = true
  /\ exists items next_i,
      process_list_block
        [lit "* First" ++ [10%N]; lit "* Second" ++ [10%N]; lit "text"]
        0 (lit "*") (lit "ol")
      = Some ([lit "<" ++ lit "ol" ++ lit ">"] ++ items
                ++ [lit "</" ++ lit "ol" ++ lit ">"], next_i)
      /\ items <> [] /\ 0 < next_i.
Proof.
  split; [reflexivity|]. split; [reflexivity|].
  destruct (list_block_well_formed
              [lit "* First" ++ [10%N]; lit "* Second" ++ [10%N]; lit "text"]
              0 (lit "*") (lit "ol") (lit "* First" ++ [10%N])
              eq_refl eq_refl)
    as [(items & next_i & H1 & H2 & _ & H3 & _) | (H & _)].
  - exists items, next_i. auto.
  - vm_compute in H. discriminate H.
Defined.

(** ** The main loop *)

Lemma dropwhile_last (f : char -> bool) (l : str) (x : char) :
  f x = false -> dropwhile f (l ++ [x]) <> [].
Proof.
  intros Hx. induction l as [|y l IH]; simpl.
  - rewrite Hx. discriminate.
  - destruct (f y); [exact IH | discriminate].
Qed.

Lemma rstrip_by_head (f : char -> bool) (x : char) (s : str) :
  f x = false -> exists t, rstrip_by f (x :: s) = x :: t.
Proof.
  intros Hx. unfold rstrip_by. simpl rev.
  assert (G : forall l, exists t, rev (dropwhile f (l ++ [x])) = x :: t).
  { induction l as [|y l IH]; simpl.
    - rewrite Hx. simpl. eauto.
    - destruct (f y); [exact IH|].
      change (y :: l ++ [x]) with ((y :: l) ++ [x]).
      rewrite rev_app_distr. simpl. eauto. }
  apply G.
Qed.

(** A line that begins with a character that is no white space is not
    blank. *)
Lemma truthy_strip_head (x : char) (s : str) :
  isspace x = false -> truthy (strip (x :: s)) = true.
Proof.
  intros Hx. unfold strip, lstrip_by. simpl dropwhile. rewrite Hx.
  destruct (rstrip_by_head isspace x s Hx) as [t ->]. reflexivity.
Qed.

Lemma startswith_hash (line : str) :
  startswith (lit "#") line = true -> exists t, line = ch "#" :: t.
Proof.
  destruct line as [|x t]; [discriminate|]. intros H.
  change (char_eqb (ch "#") x && true = true) in H.
  rewrite andb_true_r in H. apply char_eqb_eq in H. subst. eauto.
Qed.

(** On such a line a round of the main loop appends an empty paragraph
    and leaves the cursor where it is. *)
Lemma main_step_stall (lines : list str) (i : nat) (raw : str)
    (html : list str) :
  nth_error lines i = Some raw -> stalls raw = true ->
  main_step lines i html = Next i (html ++ [lit "<p></p>"]).
Proof.
  intros Hnth Hst. unfold stalls in Hst.
  apply andb_true_iff in Hst as [Hhash Hhead].
  apply negb_true_iff in Hhead. unfold is_header in Hhead.
  rewrite Hhash in Hhead. cbn [andb] in Hhead.
  unfold main_step. rewrite Hnth. cbv zeta.
  destruct (nth_error_skipn lines i raw Hnth) as (tl & Hskip & _ & _).
  destruct (startswith_hash _ Hhash) as [t Ht].
  assert (Hnb : truthy (strip (rstrip_nl raw)) = true)
    by (rewrite Ht; apply truthy_strip_head; reflexivity).
  rewrite Hnb, Hhash. cbn [negb].
  fold (header_level (rstrip_nl raw)). rewrite Hhead.
  unfold list_or_paragraph. rewrite Hnb, Hskip.
  cbn [paragraph_loop]. rewrite Hhash, Hnb.
  rewrite Ht. reflexivity.
Qed.

Lemma convert_loop_stall (lines : list str) (i : nat) (raw : str) :
  nth_error lines i = Some raw -> stalls raw = true ->
  forall fuel html, convert_loop fuel lines i html = OutOfFuel.
Proof.
  intros Hnth Hst. induction fuel as [|fuel IH]; intros html; simpl.
  - reflexivity.
  - rewrite (main_step_stall lines i raw html Hnth Hst). apply IH.
Qed.

Lemma rounds_stall (lines : list str) (i : nat) (raw : str) :
  nth_error lines i = Some raw -> stalls raw = true ->
  forall n html,
    rounds n lines i html = Next i (html ++ repeat (lit "<p></p>") n).
Proof.
  intros Hnth Hst. induction n as [|n IH]; intros html; simpl.
  - rewrite app_nil_r. reflexivity.
  - rewrite (main_step_stall lines i raw html Hnth Hst), IH.
    rewrite <- app_assoc. reflexivity.
Qed.

Lemma halts_not_stall (lines : list str) (i : nat) (raw : str) :
  nth_error lines i = Some raw -> stalls raw = true ->
  forall html, ~ halts lines i html.
Proof.
  intros Hnth Hst html H.
  remember i as j eqn:Ej in H. revert Ej.
  induction H as [j html H | j html H | j html j' html' H _ IH]; intros ->;
    rewrite (main_step_stall lines i raw html Hnth Hst) in H;
    try discriminate.
  inversion H; subst. apply IH. reflexivity.
Qed.

(** Fuel and [halts] say the same. *)
Lemma halts_fuel (lines : list str) (i : nat) (html : list str) :
  halts lines i html
  <-> exists fuel, convert_loop fuel lines i html <> OutOfFuel.
Proof.
  split.
  - induction 1 as [i html H | i html H | i html i' html' H _ [fuel IH]].
    + exists 1. simpl. rewrite H. discriminate.
    + exists 1. simpl. rewrite H. discriminate.
    + exists (S fuel). simpl. rewrite H. exact IH.
  - intros [fuel H]. revert i html H.
    induction fuel as [|fuel IH]; intros i html H; simpl in H.
    + contradiction.
    + destruct (main_step lines i html) as [| |i' html'] eqn:E.
      * apply halts_exit; exact E.
      * apply halts_raise; exact E.
      * apply (halts_next lines i html i' html' E). apply IH, H.
Qed.

(** The conversion does not return when the first line begins with [#]
    and is no header. *)
Lemma convert_stalls_on_first_line (raw : str) (rest : list str) (fuel : nat) :
  stalls raw = true ->
  convert_markdown_to_html fuel (raw :: rest) = OutOfFuel.
Proof.
  intros Hst. unfold convert_markdown_to_html.
  rewrite (convert_loop_stall _ 0 raw);
    [reflexivity | reflexivity | exact Hst].
Qed.

(** C1 (the code at the failing input): on the one-line document
    ["#x"] the main loop never ends.  Every round appends [<p></p>] and
    leaves the cursor at 0, so no amount of fuel gives a result and the
    loop does not halt. *)
Theorem convert_never_returns :
  (forall html,
     main_step [lit "#x" ++ [10%N]] 0 html = Next 0 (html ++ [lit "<p></p>"]))
  /\ (forall fuel,
        convert_markdown_to_html fuel [lit "#x" ++ [10%N]] = OutOfFuel)
  /\ ~ halts [lit "#x" ++ [10%N]] 0 [].
Proof.
  split; [|split].
  - intros html.
    apply (main_step_stall _ 0 (lit "#x" ++ [10%N])); reflexivity.
  - intros fuel. unfold convert_markdown_to_html.
    rewrite (convert_loop_stall _ 0 (lit "#x" ++ [10%N])); reflexivity.
  - apply (halts_not_stall _ 0 (lit "#x" ++ [10%N])); reflexivity.
Qed.

(** C2 (the code at the failing input): ["# Title"] and ["###### Deep"]
    give [<h1>Title</h1>] and [<h6>Deep</h6>]; a line of seven [#] and a
    line with no space after [#] fail the header test and reach the
    paragraph case, but no paragraph of theirs is ever finished: each
    round appends an empty [<p></p>], the cursor stays on the line, and
    the conversion does not return. *)
Theorem header_fallthrough_stalls :
  convert_markdown_to_html 2 [lit "# Title" ++ [10%N]]
  = Finished (lit "<h1>Title</h1>" ++ [10%N])
  /\ convert_markdown_to_html 2 [lit "###### Deep" ++ [10%N]]
     = Finished (lit "<h6>Deep</h6>" ++ [10%N])
  /\ is_header (lit "####### Seven") = false
  /\ is_header (lit "#NoSpace") = false
  /\ (forall html,
        main_step [lit "####### Seven" ++ [10%N]] 0 html
        = Next 0 (html ++ [lit "<p></p>"]))
  /\ (forall html,
        main_step [lit "#NoSpace" ++ [10%N]] 0 html
        = Next 0 (html ++ [lit "<p></p>"]))
  /\ (forall fuel,
        convert_markdown_to_html fuel [lit "####### Seven" ++ [10%N]]
        = OutOfFuel)
  /\ (forall fuel,
        convert_markdown_to_html fuel [lit "#NoSpace" ++ [10%N]]
        = OutOfFuel).
Proof.
  split; [vm_compute; reflexivity|]. split; [vm_compute; reflexivity|].
  split; [reflexivity|]. split; [reflexivity|].
  split; [|split; [|split]].
  - intros html.
    apply (main_step_stall _ 0 (lit "####### Seven" ++ [10%N])); reflexivity.
  - intros html.
    apply (main_step_stall _ 0 (lit "#NoSpace" ++ [10%N])); reflexivity.
  - intros fuel. unfold convert_markdown_to_html.
    rewrite (convert_loop_stall _ 0 (lit "####### Seven" ++ [10%N]));
      reflexivity.
  - intros fuel. unfold convert_markdown_to_html.
    rewrite (convert_loop_stall _ 0 (lit "#NoSpace" ++ [10%N])); reflexivity.
Qed.

(** C7 (the code at the failing input): in the document ["text"; "#x"]
    the first round takes line 0 into a paragraph and moves the cursor to
    line 1; from then on the cursor stays at 1 however many rounds are
    run, line 1 is never consumed, and each round emits one more
    fragment for it. *)
Theorem cursor_stuck_on_hash_line :
  main_step [lit "text" ++ [10%N]; lit "#x" ++ [10%N]] 0 []
  = Next 1 [lit "<p>text</p>"]
  /\ (forall n,
        rounds (S n) [lit "text" ++ [10%N]; lit "#x" ++ [10%N]] 0 []
        = Next 1 ([lit "<p>text</p>"] ++ repeat (lit "<p></p>") n))
  /\ (forall n, rounds n [lit "#x" ++ [10%N]] 0 []
                = Next 0 (repeat (lit "<p></p>") n)).
Proof.
  split; [reflexivity|]. split.
  - intros n. cbn [rounds].
    change (main_step [lit "text" ++ [10%N]; lit "#x" ++ [10%N]] 0 [])
      with (Next 1 [lit "<p>text</p>"]).
    cbv iota beta.
    apply (rounds_stall _ 1 (lit "#x" ++ [10%N])); reflexivity.
  - intros n.
    apply (rounds_stall [lit "#x" ++ [10%N]] 0 (lit "#x" ++ [10%N])
             eq_refl eq_refl n []).
Qed.

(** ** Away from such lines the loop is well behaved *)

Lemma list_loop_bounds (prefix : str) :
  forall rest i acc acc' j,
    list_loop prefix rest i acc = Some (acc', j) ->
    i <= j <= i + length rest
    /\ (exists items, acc' = acc ++ items)
    /\ (forall raw tl, rest = raw :: tl -> is_item prefix raw = true -> i < j).
Proof.
  induction rest as [|raw rest IH]; intros i acc acc' j H; cbn [list_loop] in H.
  - inversion H; subst. simpl. split; [lia|]. split.
    + exists []. rewrite app_nil_r. reflexivity.
    + intros ? ? E. discriminate E.
  - cbv zeta in H. destruct (startswith prefix (rstrip_nl raw)) eqn:Hs.
    + apply bind_some in H as (item & _ & H).
      apply IH in H as (Hb & (items & ->) & _). simpl. split; [lia|]. split.
      * eexists. rewrite <- app_assoc. reflexivity.
      * intros. lia.
    + unfold is_item.
      destruct (negb (truthy (strip (rstrip_nl raw)))); inversion H; subst;
        simpl; (split; [lia|]); (split; [exists []; apply eq_sym, app_nil_r|]);
        intros ? ? E Hi; inversion E; subst; congruence.
Qed.

Lemma process_list_block_bounds (lines : list str) (i : nat)
    (list_char list_tag raw : str) (list_html : list str) (next_i : nat) :
  nth_error lines i = Some raw ->
  startswith (list_char ++ lit " ") (rstrip_nl raw) = true ->
  process_list_block lines i list_char list_tag = Some (list_html, next_i) ->
  i < next_i <= length lines.
Proof.
  intros Hnth Hs H. unfold process_list_block in H.
  apply bind_some in H as ([acc j] & H & E). inversion E; subst.
  destruct (nth_error_skipn lines i raw Hnth) as (tl & Hskip & _ & _).
  pose proof (length_skipn i lines) as Hlen.
  assert (i < length lines) by (apply nth_error_Some; congruence).
  apply list_loop_bounds in H as (Hb & _ & Hp). cbn [snd].
  split; [apply (Hp raw tl Hskip Hs) | lia].
Qed.

Lemma paragraph_loop_bounds :
  forall rest i acc acc' j,
    paragraph_loop rest i acc = (acc', j) -> i <= j <= i + length rest.
Proof.
  induction rest as [|raw rest IH]; intros i acc acc' j H;
    cbn [paragraph_loop] in H.
  - inversion H; subst. simpl; lia.
  - cbv zeta in H.
    destruct (negb (truthy (strip (rstrip_nl raw)))
              || startswith (lit "#") (rstrip_nl raw)
              || startswith (lit "- ") (rstrip_nl raw)
              || startswith (lit "* ") (rstrip_nl raw)).
    + inversion H; subst. simpl; lia.
    + apply IH in H. simpl; lia.
Qed.

(** The cursor never moves backwards nor past the end, and a round only
    appends to the output. *)
Lemma main_step_cursor (lines : list str) (i : nat) (html : list str)
    (i' : nat) (html' : list str) :
  main_step lines i html = Next i' html' ->
  i <= i' <= length lines /\ exists fragment, html' = html ++ fragment.
Proof.
  unfold main_step. destruct (nth_error lines i) as [raw|] eqn:Hnth;
    [|discriminate].
  assert (Hi : i < length lines) by (apply nth_error_Some; congruence).
  destruct (nth_error_skipn lines i raw Hnth) as (tl & Hskip & _ & _).
  pose proof (length_skipn i lines) as Hlen.
  cbv zeta.
  assert (LP : list_or_paragraph lines i html (rstrip_nl raw)
               = Next i' html' ->
               i <= i' <= length lines
               /\ exists fragment, html' = html ++ fragment).
  { unfold list_or_paragraph.
    destruct (startswith (lit "- ") (rstrip_nl raw)) eqn:Hul.
    { destruct (process_list_block lines i (lit "-") (lit "ul"))
        as [[list_html next_i]|] eqn:P; [|discriminate].
      intros H; inversion H; subst.
      apply (process_list_block_bounds _ _ _ _ raw) in P; [|assumption..].
      split; [lia | eauto]. }
    destruct (startswith (lit "* ") (rstrip_nl raw)) eqn:Hol.
    { destruct (process_list_block lines i (lit "*") (lit "ol"))
        as [[list_html next_i]|] eqn:P; [|discriminate].
      intros H; inversion H; subst.
      apply (process_list_block_bounds _ _ _ _ raw) in P; [|assumption..].
      split; [lia | eauto]. }
    destruct (truthy (strip (rstrip_nl raw))).
    - destruct (paragraph_loop (skipn i lines) i []) as [pl j] eqn:P.
      destruct (parse_inline_formatting (join (lit " ") pl)); [|discriminate].
      intros H; inversion H; subst. apply paragraph_loop_bounds in P.
      split; [lia | eauto].
    - intros H; inversion H; subst. split; [lia|].
      exists []. rewrite app_nil_r. reflexivity. }
  destruct (negb (truthy (strip (rstrip_nl raw)))).
  { intros H; inversion H; subst. split; [lia|].
    exists []. rewrite app_nil_r. reflexivity. }
  destruct (startswith (lit "#") (rstrip_nl raw)); [|exact LP].
  match goal with |- context [if ?b then _ else _] => destruct b end;
    [|exact LP].
  match goal with |- context [parse_inline_formatting ?t] =>
    destruct (parse_inline_formatting t) end; [|discriminate].
  intros H; inversion H; subst. split; [lia | eauto].
Qed.

(** A round on a line that does not stall moves the cursor forward. *)
Lemma main_step_progress (lines : list str) (i : nat) (html : list str)
    (raw : str) (i' : nat) (html' : list str) :
  nth_error lines i = Some raw -> stalls raw = false ->
  main_step lines i html = Next i' html' -> i < i'.
Proof.
  intros Hnth Hst. unfold main_step. rewrite Hnth. cbv zeta.
  destruct (nth_error_skipn lines i raw Hnth) as (tl & Hskip & _ & _).
  destruct (truthy (strip (rstrip_nl raw))) eqn:Hnb; cbn [negb];
    [|intros H; inversion H; lia].
  assert (LP : startswith (lit "#") (rstrip_nl raw) = false ->
               list_or_paragraph lines i html (rstrip_nl raw) = Next i' html' ->
               i < i').
  { intros Hh. unfold list_or_paragraph.
    destruct (startswith (lit "- ") (rstrip_nl raw)) eqn:Hul.
    { destruct (process_list_block lines i (lit "-") (lit "ul"))
        as [[list_html next_i]|] eqn:P; [|discriminate].
      intros H; inversion H; subst.
      apply (process_list_block_bounds _ _ _ _ raw) in P; [lia|assumption..]. }
    destruct (startswith (lit "* ") (rstrip_nl raw)) eqn:Hol.
    { destruct (process_list_block lines i (lit "*") (lit "ol"))
        as [[list_html next_i]|] eqn:P; [|discriminate].
      intros H; inversion H; subst.
      apply (process_list_block_bounds _ _ _ _ raw) in P; [lia|assumption..]. }
    rewrite Hnb, Hskip. cbn [paragraph_loop]. rewrite Hnb, Hh, Hul, Hol.
    cbn [negb orb].
    destruct (paragraph_loop tl (S i) ([] ++ [rstrip_nl raw])) as [pl j] eqn:P.
    destruct (parse_inline_formatting (join (lit " ") pl)); [|discriminate].
    intros H; inversion H; subst. apply paragraph_loop_bounds in P. lia. }
  unfold stalls, is_header in Hst. fold (header_level (rstrip_nl raw)).
  destruct (startswith (lit "#") (rstrip_nl raw)); [|exact (LP eq_refl)].
  cbn [andb negb] in Hst. apply negb_false_iff in Hst. rewrite Hst.
  match goal with |- context [parse_inline_formatting ?t] =>
    destruct (parse_inline_formatting t) end; [|discriminate].
  intros H; inversion H; lia.
Qed.

(** A document without such lines is converted in at most one round per
    line and one more for the exit test. *)
Lemma convert_loop_terminates (lines : list str) :
  (forall raw, In raw lines -> stalls raw = false) ->
  forall n i html,
    length lines - i <= n ->
    convert_loop (S n) lines i html <> OutOfFuel.
Proof.
  intros Hok. induction n as [|n IH]; intros i html Hn; cbn [convert_loop].
  - destruct (main_step lines i html) as [| |i' html'] eqn:E;
      try discriminate.
    exfalso. unfold main_step in E.
    destruct (nth_error lines i) eqn:Hnth; [|discriminate].
    assert (i < length lines) by (apply nth_error_Some; congruence). lia.
  - destruct (main_step lines i html) as [| |i' html'] eqn:E;
      try discriminate.
    apply IH.
    assert (exists raw, nth_error lines i = Some raw) as [raw Hnth].
    { unfold main_step in E. destruct (nth_error lines i) eqn:Hnth;
        [eauto | discriminate]. }
    pose proof (main_step_progress lines i html raw i' html' Hnth
                  (Hok raw (nth_error_In _ _ Hnth)) E).
    lia.
Qed.

Lemma convert_terminates (lines : list str) :
  (forall raw, In raw lines -> stalls raw = false) ->
  convert_markdown_to_html (S (length lines)) lines <> OutOfFuel.
Proof.
  intros Hok. unfold convert_markdown_to_html.
  pose proof (convert_loop_terminates lines Hok (length lines) 0 []) as H.
  destruct (convert_loop (S (length lines)) lines 0 []);
    [discriminate | discriminate | exfalso; apply H; [lia | reflexivity]].
Qed.

(** ** Text read from a UTF-8 file raises nothing *)

Lemma list_loop_raises (prefix : str) :
  forall rest i acc,
    list_loop prefix rest i acc = None ->
    exists raw, In raw rest /\ forallb UTF8.scalar raw = false.
Proof.
  induction rest as [|raw rest IH]; intros i acc H; cbn [list_loop] in H.
  - discriminate.
  - cbv zeta in H. destruct (startswith prefix (rstrip_nl raw)).
    + destruct (list_item prefix raw) as [li|] eqn:E.
      * unfold list_item in E. apply bind_some in E as (t & Et & _).
        rewrite Et in H. cbn [bind] in H.
        destruct (IH _ _ H) as (l & Hin & Hl). exists l. split; [right|]; auto.
      * exists raw. split; [left; reflexivity | exact (list_item_raises _ _ E)].
    + destruct (negb (truthy (strip (rstrip_nl raw)))); discriminate.
Qed.

Lemma process_list_block_returns (lines : list str) (i : nat)
    (list_char list_tag : str) :
  encodable lines -> process_list_block lines i list_char list_tag <> None.
Proof.
  intros Hl H. unfold process_list_block in H.
  destruct (list_loop (list_char ++ lit " ") (skipn i lines) i
              [lit "<" ++ list_tag ++ lit ">"]) eqn:E; [discriminate|].
  apply list_loop_raises in E as (raw & Hin & Hraw).
  apply skipn_incl in Hin. rewrite (Hl raw Hin) in Hraw. discriminate.
Qed.

Lemma join_scalar (sep : str) (parts : list str) :
  forallb UTF8.scalar sep = true ->
  (forall l, In l parts -> forallb UTF8.scalar l = true) ->
  forallb UTF8.scalar (join sep parts) = true.
Proof.
  intros Hsep. induction parts as [|l parts IH]; intros H; [reflexivity|].
  cbn [join]. destruct parts as [|l' parts].
  - apply H. left; reflexivity.
  - rewrite !forallb_app, Hsep, (H l) by (left; reflexivity).
    rewrite IH by (intros l0 Hl0; apply H; right; exact Hl0). reflexivity.
Qed.

Lemma rstrip_nl_scalar (raw : str) :
  forallb UTF8.scalar raw = true -> forallb UTF8.scalar (rstrip_nl raw) = true.
Proof. apply scalar_incl. intros x. apply rstrip_by_incl. Qed.

Lemma paragraph_loop_scalar :
  forall rest i acc acc' j,
    paragraph_loop rest i acc = (acc', j) ->
    encodable rest -> encodable acc -> encodable acc'.
Proof.
  induction rest as [|raw rest IH]; intros i acc acc' j H Hrest Hacc;
    cbn [paragraph_loop] in H.
  - inversion H; subst. exact Hacc.
  - cbv zeta in H.
    destruct (negb (truthy (strip (rstrip_nl raw)))
              || startswith (lit "#") (rstrip_nl raw)
              || startswith (lit "- ") (rstrip_nl raw)
              || startswith (lit "* ") (rstrip_nl raw)).
    + inversion H; subst. exact Hacc.
    + apply IH in H; [exact H | |].
      * intros l Hl. apply Hrest. right; exact Hl.
      * intros l Hl.
        apply in_app_or in Hl as [Hl|[<-|[]]]; [exact (Hacc l Hl)|].
        apply rstrip_nl_scalar, Hrest. left; reflexivity.
Qed.

Lemma main_step_returns (lines : list str) (i : nat) (html : list str) :
  encodable lines -> main_step lines i html <> Raise.
Proof.
  intros Hl. unfold main_step.
  destruct (nth_error lines i) as [raw|] eqn:Hnth; [|discriminate].
  pose proof (Hl raw (nth_error_In _ _ Hnth)) as Hraw.
  cbv zeta.
  assert (LP : list_or_paragraph lines i html (rstrip_nl raw) <> Raise).
  { unfold list_or_paragraph.
    destruct (startswith (lit "- ") (rstrip_nl raw)).
    { destruct (process_list_block lines i (lit "-") (lit "ul"))
        as [[list_html next_i]|] eqn:P; [discriminate|].
      exfalso. exact (process_list_block_returns _ _ _ _ Hl P). }
    destruct (startswith (lit "* ") (rstrip_nl raw)).
    { destruct (process_list_block lines i (lit "*") (lit "ol"))
        as [[list_html next_i]|] eqn:P; [discriminate|].
      exfalso. exact (process_list_block_returns _ _ _ _ Hl P). }
    destruct (truthy (strip (rstrip_nl raw))); [|discriminate].
    destruct (paragraph_loop (skipn i lines) i []) as [pl j] eqn:P.
    destruct (parse_inline_formatting (join (lit " ") pl)) eqn:E;
      [discriminate|].
    exfalso. apply (parse_scalar _) in E; [exact E|].
    apply join_scalar; [reflexivity|].
    apply (paragraph_loop_scalar _ _ _ _ _ P).
    - intros l Hin. apply Hl. apply skipn_incl in Hin. exact Hin.
    - intros l []. }
  destruct (negb (truthy (strip (rstrip_nl raw)))); [discriminate|].
  destruct (startswith (lit "#") (rstrip_nl raw)); [|exact LP].
  match goal with |- context [if ?b then _ else _] => destruct b end;
    [|exact LP].
  match goal with |- context [parse_inline_formatting ?t] =>
    destruct (parse_inline_formatting t) eqn:E end; [discriminate|].
  exfalso. apply (parse_scalar _) in E; [exact E|].
  apply (scalar_incl _ raw); [|exact Hraw].
  intros x Hx. apply strip_incl, skipn_incl, rstrip_by_incl in Hx. exact Hx.
Qed.

(** A UTF-8 document in which every line that begins with [#] is a
    header is converted: the loop ends within one round per line and one
    more for the exit test, and gives the output text. *)
Lemma convert_returns (lines : list str) :
  (forall raw, In raw lines -> stalls raw = false) ->
  encodable lines ->
  exists html,
    convert_loop (S (length lines)) lines 0 [] = Finished html
    /\ convert_markdown_to_html (S (length lines)) lines
       = Finished (join [10%N] html ++ [10%N]).
Proof.
  intros Hok Hl.
  assert (G : forall n i html,
             convert_loop n lines i html <> Raised).
  { induction n as [|n IH]; intros i html; cbn [convert_loop];
      [discriminate|].
    pose proof (main_step_returns lines i html Hl) as R.
    destruct (main_step lines i html);
      [discriminate | contradiction | apply IH]. }
  pose proof (convert_loop_terminates lines Hok (length lines) 0 []) as T.
  unfold convert_markdown_to_html.
  destruct (convert_loop (S (length lines)) lines 0 []) as [html| |] eqn:E.
  - exists html. auto.
  - exfalso. exact (G _ _ _ E).
  - exfalso. apply T; [lia | reflexivity].
Qed.

(** ** Which lines start a list *)

Lemma startswith_cons (a : char) (p line : str) :
  startswith (a :: p) line = true ->
  exists t, line = a :: t /\ startswith p t = true.
Proof.
  destruct line as [|x t]; [discriminate|]. cbn [startswith]. intros H.
  apply andb_true_iff in H as [Hx Ht]. apply char_eqb_eq in Hx. subst.
  eauto.
Qed.

(** At a line that begins with ["- "] the main loop collects a [<ul>]
    list, at one that begins with ["* "] an [<ol>] list, and moves the
    cursor to the index [process_list_block] returns. *)
Lemma main_step_list_start (lines : list str) (i : nat) (raw : str)
    (html : list str) :
  nth_error lines i = Some raw ->
  (startswith (lit "- ") (rstrip_nl raw) = true ->
   main_step lines i html
   = match process_list_block lines i (lit "-") (lit "ul") with
     | Some (list_html, next_i) => Next next_i (html ++ list_html)
     | None => Raise
     end)
  /\ (startswith (lit "* ") (rstrip_nl raw) = true ->
      main_step lines i html
      = match process_list_block lines i (lit "*") (lit "ol") with
        | Some (list_html, next_i) => Next next_i (html ++ list_html)
        | None => Raise
        end).
Proof.
  intros Hnth. unfold main_step. rewrite Hnth. cbv zeta.
  split; intros Hs; pose proof Hs as Hs';
    apply startswith_cons in Hs' as (t & Ht & _);
    unfold list_or_paragraph; rewrite Ht in *;
    rewrite truthy_strip_head by reflexivity; cbn [negb].
  - change (startswith (lit "#") (ch "-" :: t)) with false. cbv iota.
    rewrite Hs. reflexivity.
  - change (startswith (lit "#") (ch "*" :: t)) with false.
    change (startswith (lit "- ") (ch "*" :: t)) with false. cbv iota.
    rewrite Hs. reflexivity.
Qed.

(** ** The documents of the specification's test list *)

Example two_lists :
  convert_markdown_to_html 10
    (document ["- Apple"; "- Banana"; ""; "* First"; "* Second"]%string)
  = Finished
      (join [10%N]
         (map lit ["<ul>"; "<li>Apple</li>"; "<li>Banana</li>"; "</ul>";
                   "<ol>"; "<li>First</li>"; "<li>Second</li>"; "</ol>"]%string)
       ++ [10%N]).
Proof. vm_compute. reflexivity. Qed.

Example joined_paragraph :
  convert_markdown_to_html 10 (document ["Line one"; "Line two"]%string)
  = Finished (lit "<p>Line one Line two</p>" ++ [10%N]).
Proof. vm_compute. reflexivity. Qed.

Example blank_only :
  convert_markdown_to_html 10 (document [""; "   "; ""]%string)
  = Finished [10%N].
Proof. vm_compute. reflexivity. Qed.

Example bold_and_emphasis :
  parse_inline_formatting (lit "**x __y__ z** ******a**")
  = Some (lit "<b>x <em>y</em> z</b> ****<b>a</b>").
Proof. vm_compute. reflexivity. Qed.

Example str_of_nat_decimal :
  map str_of_nat [0; 6; 10; 123] = map lit ["0"; "6"; "10"; "123"]%string.
Proof. vm_compute. reflexivity. Qed.

(** * Further properties of the code *)

(** ** Spans in their context *)

Section DelimitedContext.

Variables o c : ascii.
Variable repl : str -> option str.

(** Text around the subject that holds neither delimiter character is
    copied. *)
Lemma re_sub_context (pre s post : str) :
  ~ In (ch o) pre -> ~ In (ch o) post -> ~ In (ch c) post ->
  re_sub (delimited o c) repl (pre ++ s ++ post)
  = (t <- re_sub (delimited o c) repl s ;; Some (pre ++ t ++ post)).
Proof.
  intros Hpre Ho Hc. rewrite re_sub_skip_app by exact Hpre.
  rewrite (re_sub_app_post o c repl post Ho Hc (length s) s) by lia.
  destruct (re_sub (delimited o c) repl s); reflexivity.
Qed.

(** An opening delimiter with no closing character after it is no span. *)
Lemma re_sub_open_only (T : str) :
  ~ In (ch o) T -> ~ In (ch c) T ->
  re_sub (delimited o c) repl (ch o :: ch o :: T) = Some (ch o :: ch o :: T).
Proof.
  intros Ho Hc. apply re_sub_no_match; [apply delimited_nonempty|].
  intros pre t E.
  destruct (match_here (delimited o c) t) as [[g rest]|] eqn:M;
    [exfalso | reflexivity].
  apply match_delimited_inv in M as (-> & _ & _).
  destruct pre as [|p1 [|p2 pre]]; cbn [app] in E; injection E; intros;
    match goal with Ep : T = _ |- _ => rewrite Ep in Ho, Hc end.
  - apply Hc. apply in_or_app. right. left; reflexivity.
  - apply Ho. left; reflexivity.
  - apply Ho. apply in_or_app. right. left; reflexivity.
Qed.

(** The characters of the result come from the subject or are new in a
    replacement. *)
Lemma re_sub_delimited_keeps (P : char -> Prop) :
  (forall g r, (forall x, In x g -> P x) -> repl g = Some r ->
               forall x, In x r -> P x) ->
  forall n s r,
    length s <= n ->
    (forall x, In x s -> P x) ->
    re_sub (delimited o c) repl s = Some r -> forall x, In x r -> P x.
Proof.
  intros Hrepl. induction n as [|n IH]; intros s r Hn Hs H x Hx.
  - destruct s; [|simpl in Hn; lia]. inversion H; subst. destruct Hx.
  - destruct s as [|y s]; [inversion H; subst; destruct Hx|].
    simpl in Hn. rewrite (re_sub_cons _ repl (delimited_nonempty o c)) in H.
    destruct (match_here (delimited o c) (y :: s)) as [[g rest]|] eqn:M.
    + pose proof (match_here_shorter _ (delimited_nonempty o c) _ _ _ M) as Hl.
      simpl in Hl.
      apply match_delimited_inv in M as (E & _ & _).
      apply bind_some in H as (r1 & Hr1 & H).
      apply bind_some in H as (t & Ht & H). inversion H; subst r.
      apply in_app_or in Hx as [Hx|Hx].
      * apply (Hrepl g r1) with (x := x); [|exact Hr1|exact Hx].
        intros z Hz. apply Hs. rewrite E. right; right.
        apply in_or_app. left; exact Hz.
      * apply (IH rest t) with (x := x); [lia | | exact Ht | exact Hx].
        intros z Hz. apply Hs. rewrite E. right; right.
        apply in_or_app. right. right; right; exact Hz.
    + apply bind_some in H as (t & Ht & H). inversion H; subst r.
      destruct Hx as [<-|Hx]; [apply Hs; left; reflexivity|].
      apply (IH s t) with (x := x); [lia | | exact Ht | exact Hx].
      intros z Hz. apply Hs. right; exact Hz.
Qed.

End DelimitedContext.

Lemma not_in_span (a o c : ascii) (T : str) :
  ch a <> ch o -> ch a <> ch c -> ~ In (ch a) T ->
  ~ In (ch a) (ch o :: ch o :: T ++ ch c :: ch c :: []).
Proof.
  intros Ho Hc HT [H|[H|H]]; [congruence | congruence |].
  apply in_app_or in H as [H|[H|[H|[]]]]; [exact (HT H) | congruence..].
Qed.

Lemma template_keeps (pre post : str) (P : char -> Prop) :
  (forall x, In x pre -> P x) -> (forall x, In x post -> P x) ->
  forall g r, (forall x, In x g -> P x) -> template pre post g = Some r ->
              forall x, In x r -> P x.
Proof.
  intros Hpre Hpost g r Hg H x Hx. inversion H; subst r.
  apply in_app_or in Hx as [Hx|Hx]; [exact (Hpre x Hx)|].
  apply in_app_or in Hx as [Hx|Hx]; [exact (Hg x Hx) | exact (Hpost x Hx)].
Qed.

(** X1: for every non-empty text [T] that holds no ['*'] and no ['['] or
    ['('], formatting ["**" + T + "**"] yields [<b>], the text as the
    emphasis stage renders it, and [</b>]; when [T] holds no ['_'] either
    that is exactly ["<b>" + T + "</b>"]. *)
Theorem bold_directive (T : str) :
  T <> [] -> ~ In (ch "*") T -> ~ In (ch "[") T -> ~ In (ch "(") T ->
  parse_inline_formatting (lit "**" ++ T ++ lit "**")
  = (e <- em_stage T ;; Some (lit "<b>" ++ e ++ lit "</b>"))
  /\ (~ In (ch "_") T ->
      parse_inline_formatting (lit "**" ++ T ++ lit "**")
      = Some (lit "<b>" ++ T ++ lit "</b>")).
Proof.
  intros Hne Hstar Hh Hp.
  assert (G : parse_inline_formatting (lit "**" ++ T ++ lit "**")
              = (e <- em_stage T ;; Some (lit "<b>" ++ e ++ lit "</b>"))).
  { change (lit "**" ++ T ++ lit "**")
      with (ch "*" :: ch "*" :: T ++ ch "*" :: ch "*" :: []).
    unfold parse_inline_formatting, hash_stage, no_c_stage, bold_stage,
      re_hash, re_no_c, re_bold.
    rewrite re_sub_no_open
      by (apply not_in_span; [discriminate | discriminate | exact Hh]).
    cbn [bind].
    rewrite re_sub_no_open
      by (apply not_in_span; [discriminate | discriminate | exact Hp]).
    cbn [bind]. rewrite re_sub_hit by assumption.
    unfold template at 1. cbn [bind]. rewrite re_sub_nil. cbn [bind].
    rewrite app_nil_r. unfold em_stage, re_em.
    rewrite (re_sub_context "_" "_" _ (lit "<b>") T (lit "</b>"));
      [ | intros H; cbv in H; intuition discriminate..].
    destruct (re_sub (delimited "_" "_")
                (template (lit "<em>") (lit "</em>")) T); reflexivity. }
  split; [exact G|].
  intros Hu. rewrite G. unfold em_stage, re_em.
  rewrite re_sub_no_open by exact Hu. reflexivity.
Qed.

Lemma bold_directive_witness :
  lit "very __bold__" <> []
  /\ parse_inline_formatting (lit "**" ++ lit "very __bold__" ++ lit "**")
     = Some (lit "<b>very <em>bold</em></b>").
Proof.
  assert (H1 : lit "very __bold__" <> []) by discriminate.
  assert (N : forall a, forallb (fun x => negb (char_eqb x (ch a)))
                          (lit "very __bold__") = true ->
                        ~ In (ch a) (lit "very __bold__")).
  { intros a Ha Hin. rewrite forallb_forall in Ha. apply Ha in Hin.
    rewrite char_eqb_refl in Hin. discriminate. }
  split; [exact H1|].
  exact (proj1 (bold_directive (lit "very __bold__") H1
                  (N "*"%char eq_refl) (N "["%char eq_refl)
                  (N "("%char eq_refl))).
Defined.

(** X2: for every non-empty text [T] that holds no ['_'] and no ['['] or
    ['('], formatting ["__" + T + "__"] yields [<em>], the text as the
    bold stage renders it, and [</em>]; when [T] holds no ['*'] either
    that is exactly ["<em>" + T + "</em>"]. *)
Theorem emphasis_directive (T : str) :
  T <> [] -> ~ In (ch "_") T -> ~ In (ch "[") T -> ~ In (ch "(") T ->
  parse_inline_formatting (lit "__" ++ T ++ lit "__")
  = (b <- bold_stage T ;; Some (lit "<em>" ++ b ++ lit "</em>"))
  /\ (~ In (ch "*") T ->
      parse_inline_formatting (lit "__" ++ T ++ lit "__")
      = Some (lit "<em>" ++ T ++ lit "</em>")).
Proof.
  intros Hne Hu Hh Hp.
  assert (G : parse_inline_formatting (lit "__" ++ T ++ lit "__")
              = (b <- bold_stage T ;; Some (lit "<em>" ++ b ++ lit "</em>"))).
  { unfold parse_inline_formatting.
    change (lit "__" ++ T ++ lit "__")
      with (ch "_" :: ch "_" :: T ++ ch "_" :: ch "_" :: []) at 1.
    unfold hash_stage, no_c_stage, re_hash, re_no_c.
    rewrite re_sub_no_open
      by (apply not_in_span; [discriminate | discriminate | exact Hh]).
    cbn [bind].
    rewrite re_sub_no_open
      by (apply not_in_span; [discriminate | discriminate | exact Hp]).
    cbn [bind].
    change (ch "_" :: ch "_" :: T ++ ch "_" :: ch "_" :: [])
      with (lit "__" ++ T ++ lit "__").
    unfold bold_stage at 1. unfold re_bold.
    rewrite (re_sub_context "*" "*" _ (lit "__") T (lit "__"));
      [ | intros H; cbv in H; intuition discriminate..].
    fold re_bold. fold (bold_stage T).
    destruct (bold_stage T) as [b|] eqn:B; [cbn [bind]|reflexivity].
    assert (Hb : b <> [] /\ ~ In (ch "_") b).
    { unfold bold_stage, re_bold in B. split.
      - apply (re_sub_delimited_nonempty "*" "*"
                 (template (lit "<b>") (lit "</b>")) T b);
          [|exact Hne|exact B].
        intros g r Hr. inversion Hr. discriminate.
      - intros Hin.
        apply (re_sub_delimited_keeps "*" "*"
                 (template (lit "<b>") (lit "</b>"))
                 (fun x => x <> ch "_")) with (n := length T) (s := T)
                 (r := b) (x := ch "_");
          [ | lia | | exact B | exact Hin | reflexivity ].
        + apply template_keeps; intros x Hx ->; cbv in Hx;
            intuition discriminate.
        + intros x Hx ->. exact (Hu Hx). }
    destruct Hb as [Hb1 Hb2]. unfold em_stage, re_em.
    change (lit "__" ++ b ++ lit "__")
      with (ch "_" :: ch "_" :: b ++ ch "_" :: ch "_" :: []).
    rewrite re_sub_hit by assumption.
    unfold template at 1. cbn [bind]. rewrite re_sub_nil. cbn [bind].
    rewrite app_nil_r. reflexivity. }
  split; [exact G|].
  intros Hs. rewrite G. unfold bold_stage, re_bold.
  rewrite re_sub_no_open by exact Hs. reflexivity.
Qed.

Lemma emphasis_directive_witness :
  lit "so **very** soft" <> []
  /\ parse_inline_formatting (lit "__" ++ lit "so **very** soft" ++ lit "__")
     = Some (lit "<em>so <b>very</b> soft</em>").
Proof.
  assert (H1 : lit "so **very** soft" <> []) by discriminate.
  assert (N : forall a, forallb (fun x => negb (char_eqb x (ch a)))
                          (lit "so **very** soft") = true ->
                        ~ In (ch a) (lit "so **very** soft")).
  { intros a Ha Hin. rewrite forallb_forall in Ha. apply Ha in Hin.
    rewrite char_eqb_refl in Hin. discriminate. }
  split; [exact H1|].
  exact (proj1 (emphasis_directive (lit "so **very** soft") H1
                  (N "_"%char eq_refl) (N "["%char eq_refl)
                  (N "("%char eq_refl))).
Defined.

(** X3: text around the formatted text is copied: when [pre] holds no
    opening delimiter character and [post] no delimiter character at all,
    formatting [pre + s + post] is [pre], the formatted [s] and [post]. *)
Theorem formatting_is_local (pre s post : str) :
  plain pre -> delimiter_free post ->
  parse_inline_formatting (pre ++ s ++ post)
  = (r <- parse_inline_formatting s ;; Some (pre ++ r ++ post)).
Proof.
  intros (P1 & P2 & P3 & P4) Hpost.
  assert (Q : forall a, is_delimiter (ch a) = true -> ~ In (ch a) post)
    by (intros a Ha; exact (delimiter_free_not_in a post Ha Hpost)).
  unfold parse_inline_formatting, hash_stage, no_c_stage, bold_stage,
    em_stage, re_hash, re_no_c, re_bold, re_em.
  rewrite re_sub_context by (try assumption; apply Q; reflexivity).
  destruct (re_sub (delimited "[" "]") md5_hash s) as [l1|];
    [cbn [bind]|reflexivity].
  rewrite re_sub_context by (try assumption; apply Q; reflexivity).
  destruct (re_sub (delimited "(" ")") remove_c_chars l1) as [l2|];
    [cbn [bind]|reflexivity].
  rewrite re_sub_context by (try assumption; apply Q; reflexivity).
  destruct (re_sub (delimited "*" "*") (template (lit "<b>") (lit "</b>")) l2)
    as [l3|]; [cbn [bind]|reflexivity].
  rewrite re_sub_context by (try assumption; apply Q; reflexivity).
  destruct (re_sub (delimited "_" "_") (template (lit "<em>") (lit "</em>"))
              l3) as [l4|]; reflexivity.
Qed.

Lemma formatting_is_local_witness :
  plain (lit "<i>a</i> ") /\ delimiter_free (lit " & co.")
  /\ parse_inline_formatting (lit "<i>a</i> " ++ lit "**b**" ++ lit " & co.")
     = Some (lit "<i>a</i> <b>b</b> & co.").
Proof.
  assert (H1 : plain (lit "<i>a</i> ")).
  { repeat split; intros H; cbv in H;
      repeat (destruct H as [H|H]; [discriminate H|]); exact H. }
  assert (H2 : delimiter_free (lit " & co.")).
  { intros x H. cbv in H.
    repeat (destruct H as [H|H]; [subst x; reflexivity|]). destruct H. }
  split; [exact H1|]. split; [exact H2|].
  exact (formatting_is_local (lit "<i>a</i> ") (lit "**b**") (lit " & co.")
           H1 H2).
Defined.

Lemma own_stage_keeps_open_only (o c : ascii) (repl : str -> option str)
    (pre T : str) :
  delimiter_free pre -> delimiter_free T ->
  is_delimiter (ch o) = true -> is_delimiter (ch c) = true ->
  re_sub (delimited o c) repl (pre ++ ch o :: ch o :: T)
  = Some (pre ++ ch o :: ch o :: T).
Proof.
  intros Hpre HT Ho Hc.
  rewrite re_sub_skip_app by (apply delimiter_free_not_in; assumption).
  rewrite re_sub_open_only by (apply delimiter_free_not_in; assumption).
  reflexivity.
Qed.

Lemma other_stage_keeps_open_only (o o' c' : ascii)
    (repl : str -> option str) (pre T : str) :
  delimiter_free pre -> delimiter_free T ->
  is_delimiter (ch o') = true -> ch o' <> ch o ->
  re_sub (delimited o' c') repl (pre ++ ch o :: ch o :: T)
  = Some (pre ++ ch o :: ch o :: T).
Proof.
  intros Hpre HT Ho' Hne. apply re_sub_no_open. intros H.
  apply in_app_or in H as [H|[H|[H|H]]]; try congruence.
  - exact (delimiter_free_not_in o' pre Ho' Hpre H).
  - exact (delimiter_free_not_in o' T Ho' HT H).
Qed.

(** X4: a delimiter that is not closed is left as literal text: in text
    that holds no other delimiter character, an opening ["[["], ["(("],
    ["**"] or ["__"] with no closing delimiter after it stays as it is,
    and so does a closing ["]]"] or ["))"] that nothing opened. *)
Theorem unterminated_delimiters_literal (pre T : str) :
  delimiter_free pre -> delimiter_free T ->
  parse_inline_formatting (pre ++ lit "[[" ++ T) = Some (pre ++ lit "[[" ++ T)
  /\ parse_inline_formatting (pre ++ lit "((" ++ T)
     = Some (pre ++ lit "((" ++ T)
  /\ parse_inline_formatting (pre ++ lit "**" ++ T)
     = Some (pre ++ lit "**" ++ T)
  /\ parse_inline_formatting (pre ++ lit "__" ++ T)
     = Some (pre ++ lit "__" ++ T)
  /\ parse_inline_formatting (pre ++ lit "]]" ++ T)
     = Some (pre ++ lit "]]" ++ T)
  /\ parse_inline_formatting (pre ++ lit "))" ++ T)
     = Some (pre ++ lit "))" ++ T).
Proof.
  intros Hpre HT.
  assert (Own := fun o c r => own_stage_keeps_open_only o c r pre T Hpre HT).
  assert (Other := fun o o' c' r =>
                     other_stage_keeps_open_only o o' c' r pre T Hpre HT).
  assert (Closing : forall a : ascii,
             is_delimiter (ch a) = true ->
             ch a <> ch "[" -> ch a <> ch "(" -> ch a <> ch "*" ->
             ch a <> ch "_" ->
             parse_inline_formatting (pre ++ ch a :: ch a :: T)
             = Some (pre ++ ch a :: ch a :: T)).
  { intros a Ha N1 N2 N3 N4. apply parse_plain.
    repeat split; intros H;
      apply in_app_or in H as [H|[H|[H|H]]]; try congruence;
      (revert H; apply delimiter_free_not_in; [reflexivity|assumption]). }
  unfold parse_inline_formatting, hash_stage, no_c_stage, bold_stage,
    em_stage, re_hash, re_no_c, re_bold, re_em.
  change (pre ++ lit "[[" ++ T) with (pre ++ ch "[" :: ch "[" :: T).
  change (pre ++ lit "((" ++ T) with (pre ++ ch "(" :: ch "(" :: T).
  change (pre ++ lit "**" ++ T) with (pre ++ ch "*" :: ch "*" :: T).
  change (pre ++ lit "__" ++ T) with (pre ++ ch "_" :: ch "_" :: T).
  split; [|split; [|split; [|split; [|split]]]];
    try (repeat (first [ rewrite Own by reflexivity
                       | rewrite Other by (reflexivity || discriminate) ];
                 cbn [bind]);
         reflexivity).
  - apply (Closing "]"%char); (reflexivity || discriminate).
  - apply (Closing ")"%char); (reflexivity || discriminate).
Qed.

Lemma unterminated_delimiters_literal_witness :
  delimiter_free (lit "see ") /\ delimiter_free (lit "text")
  /\ parse_inline_formatting (lit "see [[text") = Some (lit "see [[text")
  /\ parse_inline_formatting (lit "see **text") = Some (lit "see **text").
Proof.
  assert (F : forall s, forallb (fun x => negb (is_delimiter x)) s = true ->
                        delimiter_free s).
  { intros s Hs x Hx. rewrite forallb_forall in Hs. apply Hs in Hx.
    apply negb_true_iff in Hx. exact Hx. }
  assert (H1 : delimiter_free (lit "see ")) by (apply F; reflexivity).
  assert (H2 : delimiter_free (lit "text")) by (apply F; reflexivity).
  split; [exact H1|]. split; [exact H2|].
  destruct (unterminated_delimiters_literal (lit "see ") (lit "text") H1 H2)
    as (A & _ & B & _).
  split; [exact A | exact B].
Defined.

(** ** What raises *)

Lemma encode_char_none (x : char) :
  UTF8.scalar x = false -> UTF8.encode_char x = None.
Proof.
  unfold UTF8.scalar, UTF8.encode_char. intros H.
  apply orb_false_iff in H as [H1 H2].
  apply N.ltb_ge in H1.
  destruct (N.ltb_spec x 128); [lia|].
  destruct (N.ltb_spec x 2048); [lia|].
  destruct (N.ltb_spec x 65536).
  - destruct (N.leb_spec 55296 x); [|lia].
    destruct (N.ltb_spec x 57344); [reflexivity|].
    destruct (N.leb_spec 57344 x); [|lia].
    destruct (N.ltb_spec x 1114112); [discriminate | lia].
  - destruct (N.ltb_spec x 1114112); [|reflexivity].
    destruct (N.leb_spec 57344 x); [discriminate | lia].
Qed.

Lemma encode_none (s : str) :
  forallb UTF8.scalar s = false -> UTF8.encode s = None.
Proof.
  induction s as [|x s IH]; simpl; intros H; [discriminate|].
  apply andb_false_iff in H as [H|H].
  - rewrite (encode_char_none x H). reflexivity.
  - rewrite (IH H). destruct (UTF8.encode_char x); reflexivity.
Qed.

(** X5: [md5_hash] returns 32 lowercase hexadecimal digits for every text
    that UTF-8 can encode, and raises for every text that holds a
    surrogate (or a number that is no code point). *)
Theorem md5_hash_digest_or_raise (text : str) :
  (forallb UTF8.scalar text = true ->
   exists h, md5_hash text = Some h /\ length h = 32
             /\ Forall (fun x => is_lower_hex x = true) h)
  /\ (forallb UTF8.scalar text = false -> md5_hash text = None).
Proof.
  split; intros H.
  - destruct (encode_scalar text H) as [b Hb].
    exists (MD5.hexdigest b). unfold md5_hash. rewrite Hb.
    split; [reflexivity|].
    split; [apply hexdigest_length | apply hexdigest_lower_hex].
  - unfold md5_hash. rewrite (encode_none text H). reflexivity.
Qed.

Lemma md5_hash_digest_or_raise_witness :
  forallb UTF8.scalar [233%N; 8364%N] = true
  /\ forallb UTF8.scalar [97%N; 56320%N] = false
  /\ (exists h, md5_hash [233%N; 8364%N] = Some h /\ length h = 32)
  /\ md5_hash [97%N; 56320%N] = None.
Proof.
  split; [reflexivity|]. split; [reflexivity|]. split.
  - destruct (proj1 (md5_hash_digest_or_raise [233%N; 8364%N]) eq_refl)
      as (h & H1 & H2 & _).
    exists h. split; assumption.
  - exact (proj2 (md5_hash_digest_or_raise [97%N; 56320%N]) eq_refl).
Defined.

(** X6: [parse_inline_formatting] returns for every text that UTF-8 can
    encode; it raises when a hash span holds a code point that UTF-8
    cannot encode, and only a hash span can make it raise: without ['[']
    or without [']'] in the text it returns whatever the text holds. *)
Theorem formatter_raises_on_unencodable_span (s : str) :
  (forallb UTF8.scalar s = true ->
   exists r, parse_inline_formatting s = Some r)
  /\ (s <> [] -> ~ In (ch "]") s -> forallb UTF8.scalar s = false ->
      parse_inline_formatting (lit "[[" ++ s ++ lit "]]") = None)
  /\ (~ In (ch "[") s \/ ~ In (ch "]") s ->
      exists r, parse_inline_formatting s = Some r).
Proof.
  split; [|split].
  - intros H. destruct (parse_inline_formatting s) as [r|] eqn:E; [eauto|].
    exfalso. exact (parse_scalar s H E).
  - intros Hne Hnin H. rewrite parse_hash_span by assumption.
    unfold md5_hash. rewrite (encode_none s H). reflexivity.
  - intros H. unfold parse_inline_formatting.
    assert (E : hash_stage s = Some s).
    { unfold hash_stage, re_hash.
      destruct H as [H|H];
        [apply re_sub_no_open | apply re_sub_no_close]; exact H. }
    rewrite E. cbn [bind].
    destruct (no_c_stage s) as [l2|] eqn:E2;
      [cbn [bind]
      | exfalso; exact (re_sub_total _ _ _ remove_c_chars_total E2)].
    destruct (bold_stage l2) as [l3|] eqn:E3;
      [cbn [bind]
      | exfalso; exact (re_sub_total _ _ _ (template_total _ _) E3)].
    destruct (em_stage l3) as [l4|] eqn:E4;
      [cbn [bind]; eauto
      | exfalso; exact (re_sub_total _ _ _ (template_total _ _) E4)].
Qed.

Lemma formatter_raises_on_unencodable_span_witness :
  [97%N; 56320%N] <> [] /\ ~ In (ch "]") [97%N; 56320%N]
  /\ forallb UTF8.scalar [97%N; 56320%N] = false
  /\ parse_inline_formatting (lit "[[" ++ [97%N; 56320%N] ++ lit "]]") = None.
Proof.
  assert (H1 : [97%N; 56320%N] <> []) by discriminate.
  assert (H2 : ~ In (ch "]") [97%N; 56320%N]).
  { intros [H|[H|[]]]; discriminate H. }
  split; [exact H1|]. split; [exact H2|]. split; [reflexivity|].
  exact (proj1 (proj2 (formatter_raises_on_unencodable_span [97%N; 56320%N]))
           H1 H2 eq_refl).
Defined.

(** ** [remove_c_chars] *)

(** X7: [remove_c_chars] never raises; its result holds no [c] and no
    [C], is no longer than the text, is the text itself when the text
    holds none, is left unchanged by a second call, and the result for
    two texts in a row is the two results in a row. *)
Theorem remove_c_chars_properties (text : str) :
  exists r,
    remove_c_chars text = Some r
    /\ (forall x, In x r -> x <> ch "c" /\ x <> ch "C")
    /\ length r <= length text
    /\ ((forall x, In x text -> x <> ch "c" /\ x <> ch "C") -> r = text)
    /\ remove_c_chars r = Some r
    /\ (forall more,
          remove_c_chars (text ++ more)
          = (m <- remove_c_chars more ;; Some (r ++ m))).
Proof.
  exists (without_c text). rewrite remove_c_chars_filter.
  assert (C : forall x, is_c x = false <-> x <> ch "c" /\ x <> ch "C").
  { intros x. unfold is_c. rewrite orb_false_iff.
    rewrite !char_eqb_neq. reflexivity. }
  split; [reflexivity|]. split; [|split; [|split; [|split]]].
  - intros x Hx. unfold without_c in Hx. apply filter_In in Hx as [_ Hx].
    apply negb_true_iff in Hx. apply C, Hx.
  - unfold without_c. apply filter_length_le.
  - intros H. unfold without_c. apply forallb_filter_id.
    apply forallb_forall. intros x Hx. apply negb_true_iff, C, H, Hx.
  - rewrite remove_c_chars_filter. f_equal. unfold without_c.
    apply forallb_filter_id. apply forallb_forall. intros x Hx.
    apply filter_In in Hx as [_ Hx]. exact Hx.
  - intros more. rewrite !remove_c_chars_filter. cbn [bind].
    unfold without_c. rewrite filter_app. reflexivity.
Qed.

(** ** Headers and paragraphs *)

Lemma nth_error_middle {A} (pre : list A) (x : A) (post : list A) :
  nth_error (pre ++ x :: post) (length pre) = Some x.
Proof. induction pre as [|y pre IH]; simpl; [reflexivity | exact IH]. Qed.

Lemma lstrip_hash_run (k : nat) (text : str) :
  lstrip_hash (repeat (ch "#") k ++ ch " " :: text) = ch " " :: text.
Proof.
  unfold lstrip_hash, lstrip_by. induction k as [|k IH]; [reflexivity|].
  cbn [repeat app dropwhile]. rewrite char_eqb_refl. exact IH.
Qed.

Lemma str_of_nat_digit (k : nat) :
  k <= 9 -> str_of_nat k = [digit_char (N.of_nat k)].
Proof.
  intros H. do 10 (destruct k as [|k]; [reflexivity|]). lia.
Qed.

(** X8: a line of one to six [#], a space and a text is rendered as
    [<hk>], the text trimmed and formatted, and [</hk>] with [k] the
    number of [#], and the cursor moves to the next line; the text may
    be empty and may begin with more spaces. *)
Theorem header_line (lines : list str) (i k : nat) (raw text : str)
    (html : list str) :
  nth_error lines i = Some raw ->
  1 <= k <= 6 ->
  rstrip_nl raw = repeat (ch "#") k ++ ch " " :: text ->
  main_step lines i html
  = match parse_inline_formatting (strip text) with
    | Some header_text =>
        Next (S i)
          (html ++ [lit "<h" ++ [digit_char (N.of_nat k)] ++ lit ">"
                    ++ header_text
                    ++ lit "</h" ++ [digit_char (N.of_nat k)] ++ lit ">"])
    | None => Raise
    end.
Proof.
  intros Hnth Hk Hline. unfold main_step. rewrite Hnth. cbv zeta.
  rewrite Hline.
  assert (Hhead : repeat (ch "#") k ++ ch " " :: text
                  = ch "#" :: (repeat (ch "#") (k - 1) ++ ch " " :: text)).
  { destruct k as [|k]; [lia|]. cbn [repeat app].
    rewrite Nat.sub_succ, Nat.sub_0_r. reflexivity. }
  assert (Hnb : truthy (strip (repeat (ch "#") k ++ ch " " :: text)) = true)
    by (rewrite Hhead; apply truthy_strip_head; reflexivity).
  rewrite Hnb. cbn [negb].
  assert (Hs : startswith (lit "#") (repeat (ch "#") k ++ ch " " :: text)
               = true) by (rewrite Hhead; reflexivity).
  rewrite Hs.
  assert (Hlevel : length (repeat (ch "#") k ++ ch " " :: text)
                   - length (lstrip_hash
                               (repeat (ch "#") k ++ ch " " :: text)) = k).
  { rewrite lstrip_hash_run, length_app, repeat_length. simpl. lia. }
  rewrite Hlevel.
  assert (Hskip : forall t, skipn k (repeat (ch "#") k ++ t) = t).
  { intros t. rewrite <- (repeat_length (ch "#") k) at 1.
    apply skipn_app_length. }
  rewrite Hskip.
  replace (skipn (k + 1) (repeat (ch "#") k ++ ch " " :: text)) with text.
  2:{ rewrite Nat.add_1_r.
      change (repeat (ch "#") k ++ ch " " :: text)
        with (repeat (ch "#") k ++ [ch " "] ++ text).
      rewrite app_assoc.
      replace (S k) with (length (repeat (ch "#") k ++ [ch " "]))
        by (rewrite length_app, repeat_length; simpl; lia).
      rewrite skipn_app_length. reflexivity. }
  replace ((1 <=? k) && (k <=? 6)) with true
    by (symmetry; apply andb_true_iff; split; apply Nat.leb_le; lia).
  cbn [andb firstn str_eqb lit]. 
  change (str_eqb [ch " "] (lit " ")) with true. cbv iota.
  rewrite str_of_nat_digit by lia. reflexivity.
Qed.

Lemma header_line_witness :
  nth_error [lit "###   Deep  **dive** " ++ [10%N]] 0
  = Some (lit "###   Deep  **dive** " ++ [10%N])
  /\ 1 <= 3 <= 6
  /\ main_step [lit "###   Deep  **dive** " ++ [10%N]] 0 []
     = Next 1 [lit "<h3>Deep  <b>dive</b></h3>"].
Proof.
  split; [reflexivity|]. split; [lia|].
  exact (header_line [lit "###   Deep  **dive** " ++ [10%N]] 0 3
           (lit "###   Deep  **dive** " ++ [10%N]) (lit "  Deep  **dive** ")
           [] eq_refl (conj (le_S _ _ (le_S _ _ (le_n 1)))
                            (le_S _ _ (le_S _ _ (le_S _ _ (le_n 3)))))
           eq_refl).
Defined.

Lemma paragraph_loop_lines (rest : list str) :
  ends_paragraph rest ->
  forall ls i acc,
    Forall (fun raw => starts_block raw = false) ls ->
    paragraph_loop (ls ++ rest) i acc
    = (acc ++ map rstrip_nl ls, i + length ls).
Proof.
  intros Hend. induction ls as [|raw ls IH]; intros i acc Hls.
  - cbn [app map length]. rewrite app_nil_r, Nat.add_0_r.
    destruct rest as [|raw rest]; [reflexivity|].
    cbn [paragraph_loop]. unfold ends_paragraph, starts_block in Hend.
    rewrite Hend. reflexivity.
  - inversion Hls as [|? ? Hraw Hls']; subst.
    cbn [app paragraph_loop]. unfold starts_block in Hraw. rewrite Hraw.
    rewrite IH by exact Hls'. cbn [map length].
    rewrite <- app_assoc. cbn [app]. f_equal. lia.
Qed.

(** X9: a run of lines none of which is blank, begins with [#] or begins
    a list, followed by such a line or by the end of the document, is
    one paragraph: the lines without their newline, joined by one space,
    formatted and wrapped in [<p>...</p>]; the cursor moves past the run
    and stays on the line that ended it. *)
Theorem paragraph_collects (pre more rest : list str) (first : str)
    (html : list str) :
  Forall (fun raw => starts_block raw = false) (first :: more) ->
  ends_paragraph rest ->
  main_step (pre ++ (first :: more) ++ rest) (length pre) html
  = match parse_inline_formatting
            (join (lit " ") (map rstrip_nl (first :: more))) with
    | Some paragraph_text =>
        Next (length pre + length (first :: more))
          (html ++ [lit "<p>" ++ paragraph_text ++ lit "</p>"])
    | None => Raise
    end.
Proof.
  intros Hls Hend. unfold main_step.
  change ((first :: more) ++ rest) with (first :: (more ++ rest)) at 1.
  rewrite nth_error_middle. cbv zeta.
  pose proof (Forall_inv Hls) as Hfirst. unfold starts_block in Hfirst.
  apply orb_false_iff in Hfirst as [Hfirst Hol].
  apply orb_false_iff in Hfirst as [Hfirst Hul].
  apply orb_false_iff in Hfirst as [Hnb Hh].
  rewrite Hnb, Hh. unfold list_or_paragraph. rewrite Hul, Hol.
  apply negb_false_iff in Hnb. rewrite Hnb.
  rewrite skipn_app_length.
  rewrite (paragraph_loop_lines rest Hend (first :: more) (length pre) [] Hls).
  reflexivity.
Qed.

Lemma paragraph_collects_witness :
  Forall (fun raw => starts_block raw = false)
    [lit "Line one  " ++ [10%N]; lit " - not a list" ++ [10%N]]
  /\ ends_paragraph [lit "# Next" ++ [10%N]]
  /\ main_step
       ([[10%N]]
          ++ [lit "Line one  " ++ [10%N]; lit " - not a list" ++ [10%N]]
          ++ [lit "# Next" ++ [10%N]])
       1 []
     = Next 3 [lit "<p>Line one    - not a list</p>"].
Proof.
  assert (H1 : Forall (fun raw => starts_block raw = false)
                 [lit "Line one  " ++ [10%N]; lit " - not a list" ++ [10%N]])
    by (repeat constructor).
  assert (H2 : ends_paragraph [lit "# Next" ++ [10%N]]) by reflexivity.
  split; [exact H1|]. split; [exact H2|].
  exact (paragraph_collects [[10%N]] [lit " - not a list" ++ [10%N]]
           [lit "# Next" ++ [10%N]] (lit "Line one  " ++ [10%N]) [] H1 H2).
Defined.

(** ** Blank documents *)

Lemma main_step_blank (lines : list str) (i : nat) (raw : str)
    (html : list str) :
  nth_error lines i = Some raw -> is_blank raw = true ->
  main_step lines i html = Next (S i) html.
Proof.
  intros Hnth Hb. unfold main_step. rewrite Hnth. cbv zeta.
  unfold is_blank in Hb. rewrite Hb. reflexivity.
Qed.

Lemma main_step_exit (lines : list str) (i : nat) (html : list str) :
  length lines <= i -> main_step lines i html = Exit.
Proof.
  intros H. unfold main_step.
  rewrite (proj2 (nth_error_None lines i) H). reflexivity.
Qed.

(** X10: a document all of whose lines are blank (empty or white space
    only), the empty document among them, is converted to the single
    newline: no fragment is emitted, and one round per line and one for
    the exit test are enough. *)
Theorem blank_document (lines : list str) :
  Forall (fun raw => is_blank raw = true) lines ->
  convert_markdown_to_html (S (length lines)) lines = Finished [10%N].
Proof.
  intros Hb.
  assert (G : forall n i html,
             i + n = length lines ->
             convert_loop (S n) lines i html = Finished html).
  { induction n as [|n IH]; intros i html Hn; cbn [convert_loop].
    - rewrite main_step_exit by lia. reflexivity.
    - destruct (nth_error lines i) as [raw|] eqn:Hnth.
      + rewrite (main_step_blank lines i raw html Hnth).
        * apply IH. lia.
        * rewrite Forall_forall in Hb. apply Hb.
          exact (nth_error_In _ _ Hnth).
      + apply nth_error_None in Hnth. lia. }
  unfold convert_markdown_to_html.
  rewrite (G (length lines) 0 []) by reflexivity. reflexivity.
Qed.

Lemma blank_document_witness :
  Forall (fun raw => is_blank raw = true)
    [[10%N]; lit "   " ++ [10%N]; [9%N; 160%N]]
  /\ convert_markdown_to_html 4 [[10%N]; lit "   " ++ [10%N]; [9%N; 160%N]]
     = Finished [10%N].
Proof.
  assert (H : Forall (fun raw => is_blank raw = true)
                [[10%N]; lit "   " ++ [10%N]; [9%N; 160%N]])
    by (repeat constructor).
  split; [exact H|]. exact (blank_document _ H).
Defined.

(** ** [process_list_block] at the edges *)

(** X11: [process_list_block] called where no list starts returns the
    open and the close tag with nothing between them: at an index past
    the last line the index comes back unchanged; at a blank line the
    index moves past it; at any other line that does not begin with the
    marker the index comes back unchanged. *)
Theorem list_block_without_items (lines : list str) (start_index : nat)
    (list_char list_tag : str) :
  (length lines <= start_index ->
   process_list_block lines start_index list_char list_tag
   = Some ([lit "<" ++ list_tag ++ lit ">"; lit "</" ++ list_tag ++ lit ">"],
           start_index))
  /\ (forall raw,
        nth_error lines start_index = Some raw ->
        startswith (list_char ++ lit " ") (rstrip_nl raw) = false ->
        process_list_block lines start_index list_char list_tag
        = Some ([lit "<" ++ list_tag ++ lit ">";
                 lit "</" ++ list_tag ++ lit ">"],
                if negb (truthy (strip (rstrip_nl raw)))
                then S start_index else start_index)).
Proof.
  unfold process_list_block. split.
  - intros H. rewrite skipn_all2 by exact H. reflexivity.
  - intros raw Hnth Hs.
    destruct (nth_error_skipn lines start_index raw Hnth) as (tl & -> & _).
    cbn [list_loop]. rewrite Hs.
    destruct (negb (truthy (strip (rstrip_nl raw)))); reflexivity.
Qed.

Lemma list_block_without_items_witness :
  length [lit "text" ++ [10%N]; [10%N]] <= 5
  /\ process_list_block [lit "text" ++ [10%N]; [10%N]] 5 (lit "-") (lit "ul")
     = Some ([lit "<ul>"; lit "</ul>"], 5)
  /\ process_list_block [lit "text" ++ [10%N]; [10%N]] 1 (lit "-") (lit "ul")
     = Some ([lit "<ul>"; lit "</ul>"], 2)
  /\ process_list_block [lit "text" ++ [10%N]; [10%N]] 0 (lit "-") (lit "ul")
     = Some ([lit "<ul>"; lit "</ul>"], 0).
Proof.
  assert (H : length [lit "text" ++ [10%N]; [10%N]] <= 5)
    by (cbv; repeat constructor).
  split; [exact H|]. split; [|split].
  - exact (proj1 (list_block_without_items [lit "text" ++ [10%N]; [10%N]] 5
                    (lit "-") (lit "ul")) H).
  - exact (proj2 (list_block_without_items [lit "text" ++ [10%N]; [10%N]] 1
                    (lit "-") (lit "ul")) [10%N] eq_refl eq_refl).
  - exact (proj2 (list_block_without_items [lit "text" ++ [10%N]; [10%N]] 0
                    (lit "-") (lit "ul")) (lit "text" ++ [10%N])
             eq_refl eq_refl).
Defined.

(** ** Where the main loop stops and where it does not *)

Lemma list_loop_stops (prefix : str) :
  forall A rest i acc acc' j raw B,
    list_loop prefix rest i acc = Some (acc', j) ->
    rest = A ++ raw :: B ->
    is_item prefix raw = false -> is_blank raw = false ->
    j <= i + length A.
Proof.
  induction A as [|a A IH]; intros rest i acc acc' j raw B H -> Hi Hb;
    cbn [app list_loop] in H; cbv zeta in H.
  - unfold is_item in Hi. unfold is_blank in Hb. rewrite Hi, Hb in H.
    inversion H; subst. simpl; lia.
  - destruct (startswith prefix (rstrip_nl a)).
    + apply bind_some in H as (item & _ & H).
      apply (IH _ _ _ _ _ raw B) in H;
        [simpl; lia | reflexivity | assumption..].
    + destruct (negb (truthy (strip (rstrip_nl a)))); inversion H; subst;
        simpl; lia.
Qed.

Lemma paragraph_loop_stops :
  forall A rest i acc acc' j raw B,
    paragraph_loop rest i acc = (acc', j) ->
    rest = A ++ raw :: B ->
    starts_block raw = true ->
    j <= i + length A.
Proof.
  induction A as [|a A IH]; intros rest i acc acc' j raw B H -> Hs;
    cbn [app paragraph_loop] in H; cbv zeta in H.
  - unfold starts_block in Hs. rewrite Hs in H. inversion H; subst.
    simpl; lia.
  - destruct (negb (truthy (strip (rstrip_nl a)))
              || startswith (lit "#") (rstrip_nl a)
              || startswith (lit "- ") (rstrip_nl a)
              || startswith (lit "* ") (rstrip_nl a)).
    + inversion H; subst. simpl; lia.
    + apply (IH _ _ _ _ _ raw B) in H; [simpl; lia | reflexivity | assumption].
Qed.

Lemma skipn_to (lines : list str) (i k : nat) (raw : str) :
  nth_error lines k = Some raw -> i <= k ->
  exists A B, skipn i lines = A ++ raw :: B /\ length A = k - i.
Proof.
  intros Hnth Hik.
  destruct (nth_error_skipn lines k raw Hnth) as (tl & _ & E & Hlen).
  exists (skipn i (firstn k lines)), tl. split.
  - rewrite E at 1. rewrite skipn_app, Hlen.
    replace (i - k) with 0 by lia. reflexivity.
  - rewrite length_skipn, Hlen. reflexivity.
Qed.

(** What a line that begins with [#] is to the loops that collect. *)
Lemma hash_line_ends_blocks (raw : str) :
  startswith (lit "#") (rstrip_nl raw) = true ->
  starts_block raw = true /\ is_blank raw = false
  /\ is_item (lit "-" ++ lit " ") raw = false
  /\ is_item (lit "*" ++ lit " ") raw = false.
Proof.
  intros H. destruct (startswith_hash _ H) as [t Ht].
  unfold starts_block, is_blank, is_item. rewrite H, Ht.
  rewrite truthy_strip_head by reflexivity.
  repeat split; try reflexivity.
Qed.

(** The cursor does not pass a line that stalls. *)
Lemma main_step_stops_at_stall (lines : list str) (i k : nat) (raw : str)
    (html : list str) (i' : nat) (html' : list str) :
  nth_error lines k = Some raw -> stalls raw = true -> i <= k ->
  main_step lines i html = Next i' html' -> i' <= k.
Proof.
  intros Hk Hst Hik H.
  destruct (Nat.eq_dec i k) as [->|Hne].
  { rewrite (main_step_stall lines k raw html Hk Hst) in H.
    inversion H; lia. }
  assert (Hhash : startswith (lit "#") (rstrip_nl raw) = true).
  { unfold stalls in Hst. apply andb_true_iff in Hst. tauto. }
  destruct (hash_line_ends_blocks raw Hhash) as (Hsb & Hnb & Hul & Hol).
  destruct (skipn_to lines i k raw Hk Hik) as (A & B & Hskip & HA).
  unfold main_step in H.
  destruct (nth_error lines i) as [cur|] eqn:Hnth; [|discriminate].
  cbv zeta in H.
  assert (LP : list_or_paragraph lines i html (rstrip_nl cur) = Next i' html' ->
               i' <= k).
  { unfold list_or_paragraph.
    destruct (startswith (lit "- ") (rstrip_nl cur)).
    { unfold process_list_block.
      destruct (list_loop (lit "-" ++ lit " ") (skipn i lines) i
                  [lit "<" ++ lit "ul" ++ lit ">"]) as [[acc j]|] eqn:L;
        [|discriminate].
      cbn [bind fst snd]. intros E; inversion E; subst.
      apply (list_loop_stops _ A _ _ _ _ _ raw B) in L; [lia|assumption..]. }
    destruct (startswith (lit "* ") (rstrip_nl cur)).
    { unfold process_list_block.
      destruct (list_loop (lit "*" ++ lit " ") (skipn i lines) i
                  [lit "<" ++ lit "ol" ++ lit ">"]) as [[acc j]|] eqn:L;
        [|discriminate].
      cbn [bind fst snd]. intros E; inversion E; subst.
      apply (list_loop_stops _ A _ _ _ _ _ raw B) in L; [lia|assumption..]. }
    destruct (truthy (strip (rstrip_nl cur))).
    - destruct (paragraph_loop (skipn i lines) i []) as [pl j] eqn:P.
      destruct (parse_inline_formatting (join (lit " ") pl)); [|discriminate].
      intros E; inversion E; subst.
      apply (paragraph_loop_stops A _ _ _ _ _ raw B) in P; [lia|assumption..].
    - intros E; inversion E; subst. lia. }
  destruct (negb (truthy (strip (rstrip_nl cur)))).
  { inversion H; subst. lia. }
  destruct (startswith (lit "#") (rstrip_nl cur)); [|exact (LP H)].
  match type of H with context [if ?b then _ else _] => destruct b end;
    [|exact (LP H)].
  match type of H with context [parse_inline_formatting ?t] =>
    destruct (parse_inline_formatting t) end; [|discriminate].
  inversion H; subst. lia.
Qed.

(** The loop is left by its exit test only past the last line. *)
Lemma main_step_exit_inv (lines : list str) (i : nat) (html : list str) :
  main_step lines i html = Exit -> length lines <= i.
Proof.
  unfold main_step.
  destruct (nth_error lines i) as [cur|] eqn:Hnth;
    [|intros _; apply nth_error_None; exact Hnth].
  cbv zeta. intros H. exfalso.
  assert (LP : list_or_paragraph lines i html (rstrip_nl cur) <> Exit).
  { unfold list_or_paragraph.
    destruct (startswith (lit "- ") (rstrip_nl cur)).
    { destruct (process_list_block lines i (lit "-") (lit "ul"))
        as [[list_html next_i]|]; discriminate. }
    destruct (startswith (lit "* ") (rstrip_nl cur)).
    { destruct (process_list_block lines i (lit "*") (lit "ol"))
        as [[list_html next_i]|]; discriminate. }
    destruct (truthy (strip (rstrip_nl cur))); [|discriminate].
    destruct (paragraph_loop (skipn i lines) i []) as [pl j].
    destruct (parse_inline_formatting (join (lit " ") pl)); discriminate. }
  destruct (negb (truthy (strip (rstrip_nl cur)))); [discriminate|].
  destruct (startswith (lit "#") (rstrip_nl cur)); [|exact (LP H)].
  match type of H with context [if ?b then _ else _] => destruct b end;
    [|exact (LP H)].
  match type of H with context [parse_inline_formatting ?t] =>
    destruct (parse_inline_formatting t) end; discriminate.
Qed.

Lemma convert_loop_before_stall (lines : list str) (k : nat) (raw : str) :
  nth_error lines k = Some raw -> stalls raw = true ->
  forall fuel i html,
    i <= k ->
    convert_loop fuel lines i html = OutOfFuel
    \/ convert_loop fuel lines i html = Raised.
Proof.
  intros Hk Hst. induction fuel as [|fuel IH]; intros i html Hik;
    cbn [convert_loop]; [left; reflexivity|].
  destruct (main_step lines i html) as [| |i' html'] eqn:E.
  - exfalso. apply main_step_exit_inv in E.
    assert (k < length lines) by (apply nth_error_Some; congruence). lia.
  - right; reflexivity.
  - apply IH. exact (main_step_stops_at_stall _ _ _ _ _ _ _ Hk Hst Hik E).
Qed.

Lemma convert_loop_not_raised (lines : list str) :
  encodable lines ->
  forall fuel i html, convert_loop fuel lines i html <> Raised.
Proof.
  intros Hl. induction fuel as [|fuel IH]; intros i html;
    cbn [convert_loop]; [discriminate|].
  pose proof (main_step_returns lines i html Hl) as R.
  destruct (main_step lines i html);
    [discriminate | contradiction | apply IH].
Qed.

(** X12: a document that holds, anywhere, a line that begins with [#]
    and fails the header test is never converted: whatever the number of
    rounds, the loop has not returned (the cursor never passes that
    line), and on lines that UTF-8 can encode it is still running and
    never halts. *)
Theorem stalling_line_blocks_conversion (lines : list str) (raw : str) :
  In raw lines -> stalls raw = true ->
  (forall fuel out, convert_markdown_to_html fuel lines <> Finished out)
  /\ (encodable lines ->
      forall fuel, convert_markdown_to_html fuel lines = OutOfFuel)
  /\ (encodable lines -> ~ halts lines 0 [])
  /\ (exists k,
        nth_error lines k = Some raw
        /\ forall n i' html',
             rounds n lines 0 [] = Next i' html' -> i' <= k).
Proof.
  intros Hin Hst. apply In_nth_error in Hin as [k Hk].
  pose proof (convert_loop_before_stall lines k raw Hk Hst) as G.
  assert (R : forall n i html i' html',
             i <= k -> rounds n lines i html = Next i' html' -> i' <= k).
  { induction n as [|n IH]; intros i html i' html' Hik H; cbn [rounds] in H.
    - inversion H; subst. exact Hik.
    - destruct (main_step lines i html) as [| |j html1] eqn:E;
        try discriminate.
      apply (IH j html1 i' html'); [|exact H].
      exact (main_step_stops_at_stall _ _ _ _ _ _ _ Hk Hst Hik E). }
  assert (G2 : encodable lines ->
               forall fuel, convert_loop fuel lines 0 [] = OutOfFuel).
  { intros Hl fuel.
    destruct (G fuel 0 [] (Nat.le_0_l k)) as [E|E]; [exact E|].
    exfalso. exact (convert_loop_not_raised lines Hl _ _ _ E). }
  split; [|split; [|split]].
  - intros fuel out. unfold convert_markdown_to_html.
    destruct (G fuel 0 [] (Nat.le_0_l k)) as [-> | ->]; discriminate.
  - intros Hl fuel. unfold convert_markdown_to_html.
    rewrite (G2 Hl fuel). reflexivity.
  - intros Hl Hh. apply halts_fuel in Hh as [fuel Hf].
    exact (Hf (G2 Hl fuel)).
  - exists k. split; [exact Hk|].
    intros n i' html'. apply R. apply Nat.le_0_l.
Qed.

Lemma stalling_line_blocks_conversion_witness :
  In (lit "#hashtag" ++ [10%N])
    [lit "# Title" ++ [10%N]; lit "text" ++ [10%N]; lit "#hashtag" ++ [10%N]]
  /\ stalls (lit "#hashtag" ++ [10%N]) = true
  /\ forall fuel,
       convert_markdown_to_html fuel
         [lit "# Title" ++ [10%N]; lit "text" ++ [10%N];
          lit "#hashtag" ++ [10%N]]
       = OutOfFuel.
Proof.
  assert (H1 : In (lit "#hashtag" ++ [10%N])
                 [lit "# Title" ++ [10%N]; lit "text" ++ [10%N];
                  lit "#hashtag" ++ [10%N]])
    by (right; right; left; reflexivity).
  split; [exact H1|]. split; [reflexivity|].
  apply (proj1 (proj2 (stalling_line_blocks_conversion _ _ H1 eq_refl))).
  intros raw [<-|[<-|[<-|[]]]]; reflexivity.
Defined.

Lemma convert_loop_more_fuel (lines : list str) (out : list str) :
  forall fuel i html n,
    convert_loop fuel lines i html = Finished out ->
    convert_loop (fuel + n) lines i html = Finished out.
Proof.
  induction fuel as [|fuel IH]; intros i html n H; cbn [convert_loop] in H;
    [discriminate|].
  cbn [Nat.add convert_loop].
  destruct (main_step lines i html); [exact H | discriminate | apply IH, H].
Qed.

(** X13: a document whose lines UTF-8 can encode and in which every line
    that begins with [#] passes the header test is converted: the loop
    ends within one round per line and one more for the exit test, more
    rounds change nothing, and the output is the fragments joined by
    newlines with a newline at the end. *)
Theorem conversion_returns (lines : list str) :
  encodable lines ->
  (forall raw, In raw lines -> stalls raw = false) ->
  exists html,
    halts lines 0 []
    /\ forall fuel,
         length lines < fuel ->
         convert_loop fuel lines 0 [] = Finished html
         /\ convert_markdown_to_html fuel lines
            = Finished (join [10%N] html ++ [10%N]).
Proof.
  intros Hl Hok. destruct (convert_returns lines Hok Hl) as (html & E & _).
  exists html. split.
  - apply halts_fuel. exists (S (length lines)). rewrite E. discriminate.
  - intros fuel Hf.
    assert (E' : convert_loop fuel lines 0 [] = Finished html).
    { replace fuel with (S (length lines) + (fuel - S (length lines))) by lia.
      apply convert_loop_more_fuel, E. }
    split; [exact E'|]. unfold convert_markdown_to_html. rewrite E'.
    reflexivity.
Qed.

Lemma conversion_returns_witness :
  encodable (document ["# Title"; "- a"; ""; "text"; "more"]%string)
  /\ (forall raw,
        In raw (document ["# Title"; "- a"; ""; "text"; "more"]%string) ->
        stalls raw = false)
  /\ exists html,
       convert_markdown_to_html 6
         (document ["# Title"; "- a"; ""; "text"; "more"]%string)
       = Finished (join [10%N] html ++ [10%N]).
Proof.
  assert (H1 : encodable
                 (document ["# Title"; "- a"; ""; "text"; "more"]%string)).
  { intros raw H. cbv in H.
    repeat (destruct H as [H|H]; [subst raw; reflexivity|]). destruct H. }
  assert (H2 : forall raw,
             In raw (document ["# Title"; "- a"; ""; "text"; "more"]%string) ->
             stalls raw = false).
  { intros raw H. cbv in H.
    repeat (destruct H as [H|H]; [subst raw; reflexivity|]). destruct H. }
  split; [exact H1|]. split; [exact H2|].
  destruct (conversion_returns _ H1 H2) as (html & _ & H).
  exists html. apply (H 6). cbv. repeat constructor.
Defined.

Lemma prefix_of_refl {A} (l : list A) : prefix_of l l.
Proof. exists []. symmetry. apply app_nil_r. Qed.

Lemma prefix_of_trans {A} (a b c : list A) :
  prefix_of a b -> prefix_of b c -> prefix_of a c.
Proof.
  intros [m1 ->] [m2 ->]. exists (m1 ++ m2). symmetry. apply app_assoc.
Qed.

(** X14: the main loop never moves its cursor backwards nor past the end
    of the document, and never changes or removes a fragment it has
    emitted: after any number of rounds the cursor is at or after where
    it was and the earlier output is the beginning of the later one. *)
Theorem loop_only_moves_forward (lines : list str) (n i : nat)
    (html : list str) (i' : nat) (html' : list str) :
  rounds n lines i html = Next i' html' ->
  i <= i' /\ (i <= length lines -> i' <= length lines)
  /\ prefix_of html html'.
Proof.
  revert i html. induction n as [|n IH]; intros i html H; cbn [rounds] in H.
  - inversion H; subst. split; [lia|]. split; [auto|apply prefix_of_refl].
  - destruct (main_step lines i html) as [| |j html1] eqn:E;
      try discriminate.
    apply main_step_cursor in E as (Hj & more & ->).
    apply IH in H as (H1 & H2 & H3). split; [lia|].
    split; [intros; apply H2; lia|].
    apply (prefix_of_trans _ (html ++ more));
      [exists more; reflexivity | exact H3].
Qed.

Lemma loop_only_moves_forward_witness :
  rounds 2 (document ["- a"; ""; "text"; "more"]%string) 0 []
  = Next 4 [lit "<ul>"; lit "<li>a</li>"; lit "</ul>"; lit "<p>text more</p>"]
  /\ 0 <= 4.
Proof.
  split; [vm_compute; reflexivity|].
  exact (proj1 (loop_only_moves_forward
                  (document ["- a"; ""; "text"; "more"]%string) 2 0 [] 4
                  [lit "<ul>"; lit "<li>a</li>"; lit "</ul>";
                   lit "<p>text more</p>"] eq_refl)).
Defined.

(** ** One output line per fragment *)

(** The formatter adds hexadecimal digits and the four tags, and nothing
    else. *)
Lemma parse_keeps (P : char -> Prop) :
  (forall x, is_lower_hex x = true -> P x) ->
  (forall x, In x (lit "<b></b><em></em>") -> P x) ->
  forall s r,
    (forall x, In x s -> P x) ->
    parse_inline_formatting s = Some r -> forall x, In x r -> P x.
Proof.
  intros Hhex Htag s r Hs H. unfold parse_inline_formatting in H.
  apply bind_some in H as (l1 & H1 & H).
  apply bind_some in H as (l2 & H2 & H).
  apply bind_some in H as (l3 & H3 & H).
  apply bind_some in H as (l4 & H4 & H). inversion H; subst r.
  assert (K1 : forall x, In x l1 -> P x).
  { apply (re_sub_delimited_keeps "[" "]" md5_hash P) with (n := length s)
      (s := s); [ | lia | exact Hs | exact H1 ].
    intros g r _ Hr x Hx. apply md5_hash_lower_hex in Hr as [_ Hr].
    rewrite Forall_forall in Hr. apply Hhex, Hr, Hx. }
  assert (K2 : forall x, In x l2 -> P x).
  { apply (re_sub_delimited_keeps "(" ")" remove_c_chars P)
      with (n := length l1) (s := l1); [ | lia | exact K1 | exact H2 ].
    intros g r Hg Hr x Hx. rewrite remove_c_chars_filter in Hr.
    inversion Hr; subst r. apply Hg, in_without_c, Hx. }
  assert (K3 : forall x, In x l3 -> P x).
  { apply (re_sub_delimited_keeps "*" "*"
             (template (lit "<b>") (lit "</b>")) P)
      with (n := length l2) (s := l2); [ | lia | exact K2 | exact H3 ].
    apply template_keeps; intros x Hx; apply Htag; cbv in Hx |- *;
      intuition auto. }
  apply (re_sub_delimited_keeps "_" "_"
           (template (lit "<em>") (lit "</em>")) P)
    with (n := length l3) (s := l3); [ | lia | exact K3 | exact H4 ].
  apply template_keeps; intros x Hx; apply Htag; cbv in Hx |- *;
    intuition auto.
Qed.

Lemma parse_newline_free (s r : str) :
  newline_free s -> parse_inline_formatting s = Some r -> newline_free r.
Proof.
  intros Hs H Hin.
  apply (parse_keeps (fun x => x <> 10%N)) with (s := s) (r := r) (x := 10%N);
    [ | | | exact H | exact Hin | reflexivity ].
  - intros x Hx ->. discriminate Hx.
  - intros x Hx ->. cbv in Hx. intuition discriminate.
  - intros x Hx ->. exact (Hs Hx).
Qed.

Lemma str_of_N_fuel_digits (fuel : nat) :
  forall n acc x,
    (forall y, In y acc -> (48 <= y)%N) ->
    In x (str_of_N_fuel fuel n acc) -> (48 <= x)%N.
Proof.
  induction fuel as [|fuel IH]; intros n acc x Hacc Hx;
    cbn [str_of_N_fuel] in Hx.
  - exact (Hacc x Hx).
  - assert (Hacc' : forall y, In y (digit_char (n mod 10) :: acc) ->
                              (48 <= y)%N).
    { intros y [<-|Hy]; [apply N.le_add_r | exact (Hacc y Hy)]. }
    cbv zeta in Hx. destruct (n <? 10)%N.
    + exact (Hacc' x Hx).
    + exact (IH _ _ x Hacc' Hx).
Qed.

Lemma str_of_nat_newline_free (n : nat) : newline_free (str_of_nat n).
Proof.
  intros H. apply (str_of_N_fuel_digits _ _ [] 10%N) in H;
    [exact (H eq_refl) | intros y []].
Qed.

Lemma newline_free_app (a b : str) :
  newline_free a -> newline_free b -> newline_free (a ++ b).
Proof. intros Ha Hb H. apply in_app_or in H as [H|H]; auto. Qed.

Lemma newline_free_lit (x : string) :
  forallb (fun y => negb (char_eqb y 10%N)) (lit x) = true ->
  newline_free (lit x).
Proof.
  intros H Hin. rewrite forallb_forall in H. apply H in Hin.
  discriminate Hin.
Qed.

Lemma newline_free_cons (x : char) (s : str) :
  x <> 10%N -> newline_free s -> newline_free (x :: s).
Proof. intros Hx Hs [H|H]; [exact (Hx H) | exact (Hs H)]. Qed.

(** A fragment is newline free when its variable parts are. *)
Ltac fragment_newline_free :=
  repeat first
    [ assumption
    | apply str_of_nat_newline_free
    | apply newline_free_lit; reflexivity
    | apply newline_free_cons; [discriminate|]
    | apply newline_free_app ].

Lemma newline_free_sub (s t : str) :
  (forall x, In x s -> In x t) -> newline_free t -> newline_free s.
Proof. intros Hsub Ht H. exact (Ht (Hsub _ H)). Qed.

Lemma join_newline_free (parts : list str) :
  Forall newline_free parts -> newline_free (join (lit " ") parts).
Proof.
  induction parts as [|p parts IH]; intros H; [intros []|].
  inversion H as [|? ? Hp Hparts]; subst. cbn [join].
  destruct parts as [|q parts]; [exact Hp|].
  apply newline_free_app; [exact Hp|].
  apply newline_free_app; [apply newline_free_lit; reflexivity|].
  apply IH, Hparts.
Qed.

Lemma list_loop_newline_free (prefix : str) :
  forall rest i acc acc' j,
    (forall raw, In raw rest -> read_line raw) ->
    Forall newline_free acc ->
    list_loop prefix rest i acc = Some (acc', j) ->
    Forall newline_free acc'.
Proof.
  induction rest as [|raw rest IH]; intros i acc acc' j Hrest Hacc H;
    cbn [list_loop] in H; cbv zeta in H.
  - inversion H; subst. exact Hacc.
  - destruct (startswith prefix (rstrip_nl raw)).
    + apply bind_some in H as (item & Hitem & H).
      apply IH in H; [exact H | intros r Hr; apply Hrest; right; exact Hr |].
      assert (Hi : newline_free item).
      { apply (parse_newline_free _ _) with (2 := Hitem).
        apply (newline_free_sub _ (rstrip_nl raw));
          [|apply Hrest; left; reflexivity].
        intros x Hx. apply strip_incl, skipn_incl in Hx. exact Hx. }
      apply Forall_app. split; [exact Hacc|]. constructor; [|constructor].
      fragment_newline_free.
    + destruct (negb (truthy (strip (rstrip_nl raw)))); inversion H; subst;
        exact Hacc.
Qed.

Lemma paragraph_loop_newline_free :
  forall rest i acc acc' j,
    (forall raw, In raw rest -> read_line raw) ->
    Forall newline_free acc ->
    paragraph_loop rest i acc = (acc', j) ->
    Forall newline_free acc'.
Proof.
  induction rest as [|raw rest IH]; intros i acc acc' j Hrest Hacc H;
    cbn [paragraph_loop] in H; cbv zeta in H.
  - inversion H; subst. exact Hacc.
  - destruct (negb (truthy (strip (rstrip_nl raw)))
              || startswith (lit "#") (rstrip_nl raw)
              || startswith (lit "- ") (rstrip_nl raw)
              || startswith (lit "* ") (rstrip_nl raw)).
    + inversion H; subst. exact Hacc.
    + apply IH in H; [exact H | intros r Hr; apply Hrest; right; exact Hr |].
      apply Forall_app. split; [exact Hacc|]. constructor; [|constructor].
      apply Hrest. left; reflexivity.
Qed.

Lemma process_list_block_newline_free (lines : list str) (i : nat)
    (list_char list_tag : str) (list_html : list str) (next_i : nat) :
  (forall raw, In raw lines -> read_line raw) ->
  newline_free list_tag ->
  process_list_block lines i list_char list_tag = Some (list_html, next_i) ->
  Forall newline_free list_html.
Proof.
  intros Hl Htag H. unfold process_list_block in H.
  destruct (list_loop (list_char ++ lit " ") (skipn i lines) i
              [lit "<" ++ list_tag ++ lit ">"]) as [[acc j]|] eqn:L;
    [|discriminate].
  cbn [bind fst snd] in H. injection H as <- <-.
  apply Forall_app. split.
  - apply (list_loop_newline_free _ _ _ _ _ _) with (3 := L).
    + intros raw Hr. apply Hl. apply skipn_incl in Hr. exact Hr.
    + constructor; [|constructor]. fragment_newline_free.
  - constructor; [|constructor]. fragment_newline_free.
Qed.

Lemma main_step_newline_free (lines : list str) (i : nat) (html : list str)
    (i' : nat) (html' : list str) :
  (forall raw, In raw lines -> read_line raw) ->
  Forall newline_free html ->
  main_step lines i html = Next i' html' ->
  Forall newline_free html'.
Proof.
  intros Hl Hhtml. unfold main_step.
  destruct (nth_error lines i) as [raw|] eqn:Hnth; [|discriminate].
  pose proof (Hl raw (nth_error_In _ _ Hnth)) as Hraw.
  cbv zeta.
  assert (LP : list_or_paragraph lines i html (rstrip_nl raw)
               = Next i' html' ->
               Forall newline_free html').
  { unfold list_or_paragraph.
    destruct (startswith (lit "- ") (rstrip_nl raw)).
    { destruct (process_list_block lines i (lit "-") (lit "ul"))
        as [[list_html next_i]|] eqn:P; [|discriminate].
      intros E; inversion E; subst. apply Forall_app. split; [exact Hhtml|].
      apply (process_list_block_newline_free _ _ _ _ _ _ Hl) with (2 := P).
      apply newline_free_lit; reflexivity. }
    destruct (startswith (lit "* ") (rstrip_nl raw)).
    { destruct (process_list_block lines i (lit "*") (lit "ol"))
        as [[list_html next_i]|] eqn:P; [|discriminate].
      intros E; inversion E; subst. apply Forall_app. split; [exact Hhtml|].
      apply (process_list_block_newline_free _ _ _ _ _ _ Hl) with (2 := P).
      apply newline_free_lit; reflexivity. }
    destruct (truthy (strip (rstrip_nl raw))).
    - destruct (paragraph_loop (skipn i lines) i []) as [pl j] eqn:P.
      destruct (parse_inline_formatting (join (lit " ") pl)) as [t|] eqn:E;
        [|discriminate].
      assert (Ht : newline_free t).
      { apply (parse_newline_free _ _) with (2 := E).
        apply join_newline_free.
        apply (paragraph_loop_newline_free _ _ _ _ _) with (3 := P);
          [|constructor].
        intros r Hr. apply Hl. apply skipn_incl in Hr. exact Hr. }
      intros E'; inversion E'; subst. apply Forall_app. split; [exact Hhtml|].
      constructor; [|constructor]. fragment_newline_free.
    - intros E; inversion E; subst. exact Hhtml. }
  destruct (negb (truthy (strip (rstrip_nl raw)))).
  { intros E; inversion E; subst. exact Hhtml. }
  destruct (startswith (lit "#") (rstrip_nl raw)); [|exact LP].
  match goal with |- context [if ?b then _ else _] => destruct b end;
    [|exact LP].
  match goal with |- context [parse_inline_formatting ?t] =>
    destruct (parse_inline_formatting t) as [ht|] eqn:E end; [|discriminate].
  assert (Ht : newline_free ht).
  { apply (parse_newline_free _ _) with (2 := E).
    apply (newline_free_sub _ (rstrip_nl raw)); [|exact Hraw].
    intros x Hx. apply strip_incl, skipn_incl in Hx. exact Hx. }
  intros E'; inversion E'; subst. apply Forall_app. split; [exact Hhtml|].
  constructor; [|constructor]. fragment_newline_free.
Qed.

Lemma convert_loop_newline_free (lines : list str) :
  (forall raw, In raw lines -> read_line raw) ->
  forall fuel i html out,
    Forall newline_free html ->
    convert_loop fuel lines i html = Finished out ->
    Forall newline_free out.
Proof.
  intros Hl. induction fuel as [|fuel IH]; intros i html out Hh H;
    cbn [convert_loop] in H; [discriminate|].
  destruct (main_step lines i html) as [| |i' html'] eqn:E.
  - inversion H; subst. exact Hh.
  - discriminate.
  - apply (IH i' html' out); [|exact H].
    exact (main_step_newline_free lines i html i' html' Hl Hh E).
Qed.

Lemma count_newlines_join (html : list str) :
  Forall newline_free html -> html <> [] ->
  count_occ N.eq_dec (join [10%N] html) 10%N = length html - 1.
Proof.
  induction html as [|p html IH]; intros H Hne; [contradiction|].
  inversion H as [|? ? Hp Hrest]; subst.
  assert (C : count_occ N.eq_dec p 10%N = 0)
    by (apply count_occ_not_In; exact Hp).
  destruct html as [|q html]; [exact C|].
  change (join [10%N] (p :: q :: html))
    with (p ++ [10%N] ++ join [10%N] (q :: html)).
  rewrite !count_occ_app, IH by (assumption || discriminate).
  change (@count_occ char N.eq_dec p 10%N)
    with (@count_occ N N.eq_dec p 10%N).
  rewrite C. simpl. lia.
Qed.

(** X15: when the lines are as [readlines] returns them (no newline
    except at the end of a line), no fragment holds a newline, so the
    output text, in which the fragments are joined by newlines and
    followed by one, has exactly one line per entry of [html_content]
    (as many newlines as entries) when there is at least one. *)
Theorem one_line_per_fragment (lines : list str) (fuel : nat)
    (html : list str) :
  (forall raw, In raw lines -> read_line raw) ->
  convert_loop fuel lines 0 [] = Finished html ->
  Forall newline_free html
  /\ convert_markdown_to_html fuel lines
     = Finished (join [10%N] html ++ [10%N])
  /\ (html <> [] ->
      count_occ N.eq_dec (join [10%N] html ++ [10%N]) 10%N = length html).
Proof.
  intros Hl H.
  assert (F : Forall newline_free html)
    by (apply (convert_loop_newline_free lines Hl fuel 0 [] html);
        [constructor | exact H]).
  split; [exact F|]. split.
  - unfold convert_markdown_to_html. rewrite H. reflexivity.
  - intros Hne. rewrite count_occ_app, count_newlines_join by assumption.
    destruct html; [contradiction|]. simpl. lia.
Qed.

Lemma one_line_per_fragment_witness :
  (forall raw,
     In raw (document ["- a"; "- b"; ""; "text"; "more"]%string) ->
     read_line raw)
  /\ count_occ N.eq_dec
       (lit "<ul>" ++ [10%N] ++ lit "<li>a</li>" ++ [10%N]
        ++ lit "<li>b</li>" ++ [10%N] ++ lit "</ul>" ++ [10%N]
        ++ lit "<p>text more</p>" ++ [10%N]) 10%N
     = 5.
Proof.
  assert (H1 : forall raw,
             In raw (document ["- a"; "- b"; ""; "text"; "more"]%string) ->
             read_line raw).
  { intros raw H. cbv in H.
    repeat (destruct H as [H|H];
            [subst raw; cbv; intuition discriminate|]).
    destruct H. }
  split; [exact H1|].
  refine (proj2 (proj2 (one_line_per_fragment
                   (document ["- a"; "- b"; ""; "text"; "more"]%string) 6
                   [lit "<ul>"; lit "<li>a</li>"; lit "<li>b</li>";
                    lit "</ul>"; lit "<p>text more</p>"] H1 _)) _).
  - vm_compute. reflexivity.
  - discriminate.
Defined.

(** ** Lists in the main loop *)

(** X16: in the main loop a run of lines that begin with ["- "] becomes
    one [<ul>] list and a run of lines that begin with ["* "] one [<ol>]
    list: the open tag, one [<li>] line per marker line and the close
    tag are appended, and the cursor moves past the run and past the
    blank line after it, if there is one. *)
Theorem list_lines_render (pre more rest : list str)
    (first list_char list_tag : str) (html : list str) :
  (list_char = lit "-" /\ list_tag = lit "ul")
  \/ (list_char = lit "*" /\ list_tag = lit "ol") ->
  Forall (fun raw => is_item (list_char ++ lit " ") raw = true)
    (first :: more) ->
  ends_list (list_char ++ lit " ") rest ->
  main_step (pre ++ (first :: more) ++ rest) (length pre) html
  = match mapM (list_item (list_char ++ lit " ")) (first :: more) with
    | Some lis =>
        Next (length pre + length (first :: more) + blank_consumed rest)
          (html ++ [lit "<" ++ list_tag ++ lit ">"] ++ lis
                ++ [lit "</" ++ list_tag ++ lit ">"])
    | None => Raise
    end.
Proof.
  intros Hkind Hitems Hend.
  pose proof (Forall_inv Hitems) as Hfirst. unfold is_item in Hfirst.
  assert (Hnth : nth_error (pre ++ (first :: more) ++ rest) (length pre)
                 = Some first) by apply nth_error_middle.
  destruct (main_step_list_start _ _ first html Hnth) as [Hul Hol].
  pose proof (process_list_block_items pre (first :: more) rest list_char
                list_tag Hitems Hend) as P.
  destruct Hkind as [[-> ->]|[-> ->]].
  - rewrite (Hul Hfirst), P.
    destruct (mapM (list_item (lit "-" ++ lit " ")) (first :: more));
      reflexivity.
  - rewrite (Hol Hfirst), P.
    destruct (mapM (list_item (lit "*" ++ lit " ")) (first :: more));
      reflexivity.
Qed.

Lemma list_lines_render_witness :
  Forall (fun raw => is_item (lit "*" ++ lit " ") raw = true)
    [lit "* First" ++ [10%N]; lit "*  __Second__" ++ [10%N]]
  /\ ends_list (lit "*" ++ lit " ") [lit "- other" ++ [10%N]]
  /\ main_step
       ([lit "# T" ++ [10%N]]
          ++ [lit "* First" ++ [10%N]; lit "*  __Second__" ++ [10%N]]
          ++ [lit "- other" ++ [10%N]])
       1 [lit "<h1>T</h1>"]
     = Next 3 [lit "<h1>T</h1>"; lit "<ol>"; lit "<li>First</li>";
               lit "<li><em>Second</em></li>"; lit "</ol>"].
Proof.
  assert (H1 : Forall (fun raw => is_item (lit "*" ++ lit " ") raw = true)
                 [lit "* First" ++ [10%N]; lit "*  __Second__" ++ [10%N]])
    by (repeat constructor).
  assert (H2 : ends_list (lit "*" ++ lit " ") [lit "- other" ++ [10%N]])
    by reflexivity.
  split; [exact H1|]. split; [exact H2|].
  exact (list_lines_render [lit "# T" ++ [10%N]]
           [lit "*  __Second__" ++ [10%N]] [lit "- other" ++ [10%N]]
           (lit "* First" ++ [10%N]) (lit "*") (lit "ol") [lit "<h1>T</h1>"]
           (or_intror (conj eq_refl eq_refl)) H1 H2).
Defined.

(** ** The order of the stages *)

Lemma not_in_parts (x : char) (a T b : str) :
  forallb (fun y => negb (char_eqb y x)) a = true ->
  ~ In x T ->
  forallb (fun y => negb (char_eqb y x)) b = true ->
  ~ In x (a ++ T ++ b).
Proof.
  intros Ha HT Hb H.
  assert (G : forall l, forallb (fun y => negb (char_eqb y x)) l = true ->
                        ~ In x l).
  { intros l Hl Hin. rewrite forallb_forall in Hl. apply Hl in Hin.
    rewrite char_eqb_refl in Hin. discriminate. }
  apply in_app_or in H as [H|H]; [exact (G a Ha H)|].
  apply in_app_or in H as [H|H]; [exact (HT H) | exact (G b Hb H)].
Qed.

Lemma lower_hex_not_in (a : ascii) (h : str) :
  is_lower_hex (ch a) = false ->
  Forall (fun x => is_lower_hex x = true) h -> ~ In (ch a) h.
Proof.
  intros Ha Hh Hin. rewrite Forall_forall in Hh. apply Hh in Hin. congruence.
Qed.

(** A hash span between asterisks: the digest is put in first and the
    bold stage then finds it between its delimiters. *)
Lemma parse_bold_hash_span (T : str) :
  T <> [] -> ~ In (ch "]") T ->
  parse_inline_formatting (lit "**[[" ++ T ++ lit "]]**")
  = (h <- md5_hash T ;; Some (lit "<b>" ++ h ++ lit "</b>")).
Proof.
  intros Hne Hnin. unfold parse_inline_formatting.
  replace (lit "**[[" ++ T ++ lit "]]**")
    with (lit "**" ++ (ch "[" :: ch "[" :: T ++ ch "]" :: ch "]" :: [])
            ++ lit "**")
    by (cbn [app lit map list_ascii_of_string]; rewrite <- app_assoc;
        reflexivity).
  unfold hash_stage at 1. unfold re_hash.
  rewrite (re_sub_context "[" "]" md5_hash (lit "**") _ (lit "**"));
    [ | intros H; cbv in H; intuition discriminate..].
  fold re_hash.
  fold (hash_stage (ch "[" :: ch "[" :: T ++ ch "]" :: ch "]" :: [])).
  rewrite hash_stage_span by assumption.
  destruct (md5_hash T) as [h|] eqn:E; [|reflexivity].
  cbn [bind]. unfold hash_stage at 1. rewrite re_sub_nil. cbn [bind].
  rewrite app_nil_r.
  destruct (md5_hash_lower_hex T h E) as [Hlen Hhex].
  assert (Hh : h <> []) by (intros ->; discriminate Hlen).
  unfold no_c_stage, re_no_c.
  rewrite re_sub_no_open
    by (apply not_in_parts;
        [reflexivity | apply lower_hex_not_in; [reflexivity|exact Hhex]
        | reflexivity]).
  cbn [bind]. unfold bold_stage, re_bold.
  change (lit "**" ++ h ++ lit "**")
    with (ch "*" :: ch "*" :: h ++ ch "*" :: ch "*" :: []).
  rewrite re_sub_hit
    by first [ exact Hh
             | apply lower_hex_not_in; [reflexivity|exact Hhex] ].
  unfold template at 1. cbn [bind]. rewrite re_sub_nil. cbn [bind].
  rewrite app_nil_r. unfold em_stage, re_em.
  rewrite re_sub_no_open
    by (apply not_in_parts;
        [reflexivity | apply lower_hex_not_in; [reflexivity|exact Hhex]
        | reflexivity]).
  reflexivity.
Qed.

(** A hash span between parentheses: the digest is put in first and the
    removal stage then takes the [c]s out of the digest. *)
Lemma parse_no_c_hash_span (T : str) :
  T <> [] -> ~ In (ch "]") T ->
  parse_inline_formatting (lit "(([[" ++ T ++ lit "]]))")
  = (h <- md5_hash T ;; Some (without_c h)).
Proof.
  intros Hne Hnin. unfold parse_inline_formatting.
  replace (lit "(([[" ++ T ++ lit "]]))")
    with (ch "(" :: ch "("
            :: (ch "[" :: ch "[" :: T ++ ch "]" :: ch "]" :: [])
            ++ ch ")" :: ch ")" :: [])
    by (cbn [app lit map list_ascii_of_string]; rewrite <- app_assoc;
        reflexivity).
  rewrite hash_stage_in_parentheses, hash_stage_span by assumption.
  destruct (md5_hash T) as [h|] eqn:E; [|reflexivity].
  cbn [bind]. unfold hash_stage at 1. rewrite re_sub_nil. cbn [bind].
  rewrite app_nil_r.
  destruct (md5_hash_lower_hex T h E) as [Hlen Hhex].
  assert (Hh : h <> []) by (intros ->; discriminate Hlen).
  unfold no_c_stage, re_no_c.
  rewrite re_sub_hit
    by first [ exact Hh
             | apply lower_hex_not_in; [reflexivity|exact Hhex] ].
  rewrite remove_c_chars_filter. cbn [bind]. rewrite re_sub_nil.
  cbn [bind]. rewrite app_nil_r.
  assert (Hw : forall a, is_lower_hex (ch a) = false ->
                         ~ In (ch a) (without_c h)).
  { intros a Ha Hin. apply in_without_c in Hin.
    exact (lower_hex_not_in a h Ha Hhex Hin). }
  unfold bold_stage, em_stage, re_bold, re_em.
  rewrite re_sub_no_open by (apply Hw; reflexivity). cbn [bind].
  rewrite re_sub_no_open by (apply Hw; reflexivity). reflexivity.
Qed.

(** Delimiters that appear only when the [c]s between their halves are
    removed: the bold and the emphasis stage find them, so they work on
    what the removal stage returns. *)
Lemma parse_delimiters_from_removal (o : ascii) (tag_open tag_close : string)
    (T : str) :
  (o = "*"%char /\ tag_open = "<b>"%string /\ tag_close = "</b>"%string)
  \/ (o = "_"%char /\ tag_open = "<em>"%string /\ tag_close = "</em>"%string) ->
  T <> [] -> delimiter_free T ->
  (forall x, In x T -> is_c x = false) ->
  parse_inline_formatting
    (lit "((" ++ [ch o; ch "c"; ch o] ++ T ++ [ch o; ch "C"; ch o]
       ++ lit "))")
  = Some (lit tag_open ++ T ++ lit tag_close).
Proof.
  intros Hkind Hne Hfree Hc.
  assert (D : forall a, is_delimiter (ch a) = true -> ~ In (ch a) T)
    by (intros a Ha; exact (delimiter_free_not_in a T Ha Hfree)).
  assert (W : without_c T = T).
  { unfold without_c. apply forallb_filter_id. apply forallb_forall.
    intros x Hx. rewrite (Hc x Hx). reflexivity. }
  unfold parse_inline_formatting, hash_stage, no_c_stage, bold_stage,
    em_stage, re_hash, re_no_c, re_bold, re_em.
  replace (lit "((" ++ [ch o; ch "c"; ch o] ++ T ++ [ch o; ch "C"; ch o]
             ++ lit "))")
    with (ch "(" :: ch "("
            :: ([ch o; ch "c"; ch o] ++ T ++ [ch o; ch "C"; ch o])
            ++ ch ")" :: ch ")" :: [])
    by (cbn [app lit map list_ascii_of_string]; rewrite <- !app_assoc;
        reflexivity).
  destruct Hkind as [(-> & -> & ->)|(-> & -> & ->)].
  - rewrite re_sub_no_open.
    2:{ intros [H|[H|H]]; try discriminate H.
        apply in_app_or in H as [H|[H|[H|[]]]]; try discriminate H.
        revert H. apply not_in_parts;
          [reflexivity | apply D; reflexivity | reflexivity]. }
    cbn [bind]. rewrite re_sub_hit.
    2: discriminate.
    2:{ apply not_in_parts;
          [reflexivity | apply D; reflexivity | reflexivity]. }
    rewrite remove_c_chars_filter. cbn [bind]. rewrite re_sub_nil.
    cbn [bind]. rewrite app_nil_r.
    unfold without_c. rewrite !filter_app. fold (without_c T). rewrite W.
    change (filter (fun x => negb (is_c x)) [ch "*"; ch "c"; ch "*"])
      with [ch "*"; ch "*"].
    change (filter (fun x => negb (is_c x)) [ch "*"; ch "C"; ch "*"])
      with [ch "*"; ch "*"].
    change ([ch "*"; ch "*"] ++ T ++ [ch "*"; ch "*"])
      with (ch "*" :: ch "*" :: T ++ ch "*" :: ch "*" :: []).
    rewrite re_sub_hit by first [exact Hne | apply D; reflexivity].
    unfold template at 1. cbn [bind]. rewrite re_sub_nil. cbn [bind].
    rewrite app_nil_r.
    rewrite re_sub_no_open
      by (apply not_in_parts;
          [reflexivity | apply D; reflexivity | reflexivity]).
    reflexivity.
  - rewrite re_sub_no_open.
    2:{ intros [H|[H|H]]; try discriminate H.
        apply in_app_or in H as [H|[H|[H|[]]]]; try discriminate H.
        revert H. apply not_in_parts;
          [reflexivity | apply D; reflexivity | reflexivity]. }
    cbn [bind]. rewrite re_sub_hit.
    2: discriminate.
    2:{ apply not_in_parts;
          [reflexivity | apply D; reflexivity | reflexivity]. }
    rewrite remove_c_chars_filter. cbn [bind]. rewrite re_sub_nil.
    cbn [bind]. rewrite app_nil_r.
    unfold without_c. rewrite !filter_app. fold (without_c T). rewrite W.
    change (filter (fun x => negb (is_c x)) [ch "_"; ch "c"; ch "_"])
      with [ch "_"; ch "_"].
    change (filter (fun x => negb (is_c x)) [ch "_"; ch "C"; ch "_"])
      with [ch "_"; ch "_"].
    rewrite re_sub_no_open
      by (apply not_in_parts;
          [reflexivity | apply D; reflexivity | reflexivity]).
    cbn [bind].
    change ([ch "_"; ch "_"] ++ T ++ [ch "_"; ch "_"])
      with (ch "_" :: ch "_" :: T ++ ch "_" :: ch "_" :: []).
    rewrite re_sub_hit by first [exact Hne | apply D; reflexivity].
    unfold template at 1. cbn [bind]. rewrite re_sub_nil. cbn [bind].
    rewrite app_nil_r. reflexivity.
Qed.

(** C6: [parse_inline_formatting] is the four [re.sub] calls in the order
    hash directive, character removal, bold, emphasis, each applied to
    the result of the one before.  A hash span between asterisks or
    between parentheses is replaced by its digest first, and the bold
    stage wraps the digest (so ["**[[ab]]**"] gives [<b>], the digest of
    ["ab"], [</b>]) and the removal stage takes the [c]s out of the
    digest; spans of the later stages inside a hash span are hashed, not
    rendered; bold and emphasis delimiters that only the removal of a
    [c] brings together are rendered, so both stages run on what the
    removal stage returns, and delimiters around nothing but [c]s are
    not; and on one line each stage finds a span only the stage before
    it has made. *)
Theorem stage_order :
  (forall line,
     parse_inline_formatting line
     = (l1 <- re_sub (delimited "[" "]") md5_hash line ;;
        l2 <- re_sub (delimited "(" ")") remove_c_chars l1 ;;
        l3 <- re_sub (delimited "*" "*")
                (template (lit "<b>") (lit "</b>")) l2 ;;
        re_sub (delimited "_" "_") (template (lit "<em>") (lit "</em>")) l3))
  /\ (forall T,
        T <> [] -> ~ In (ch "]") T ->
        parse_inline_formatting (lit "**[[" ++ T ++ lit "]]**")
        = (h <- md5_hash T ;; Some (lit "<b>" ++ h ++ lit "</b>"))
        /\ parse_inline_formatting (lit "(([[" ++ T ++ lit "]]))")
           = (h <- md5_hash T ;; Some (without_c h)))
  /\ (forall T,
        T <> [] -> delimiter_free T ->
        (forall x, In x T -> is_c x = false) ->
        parse_inline_formatting
          (lit "((" ++ lit "*c*" ++ T ++ lit "*C*" ++ lit "))")
        = Some (lit "<b>" ++ T ++ lit "</b>")
        /\ parse_inline_formatting
             (lit "((" ++ lit "_c_" ++ T ++ lit "_C_" ++ lit "))")
           = Some (lit "<em>" ++ T ++ lit "</em>"))
  /\ md5_hash (lit "ab") = Some (lit "187ef4436122d1cc2f40dc2b92f0eba0")
  /\ hash_stage (lit "**[[ab]]**")
     = Some (lit "**187ef4436122d1cc2f40dc2b92f0eba0**")
  /\ parse_inline_formatting (lit "**[[ab]]**")
     = Some (lit "<b>187ef4436122d1cc2f40dc2b92f0eba0</b>")
  /\ hash_stage (lit "((_c_*c*[[ab]]*c*_c_))")
     = Some (lit "((_c_*c*187ef4436122d1cc2f40dc2b92f0eba0*c*_c_))")
  /\ no_c_stage (lit "((_c_*c*187ef4436122d1cc2f40dc2b92f0eba0*c*_c_))")
     = Some (lit "__**187ef4436122d12f40d2b92f0eba0**__")
  /\ bold_stage (lit "__**187ef4436122d12f40d2b92f0eba0**__")
     = Some (lit "__<b>187ef4436122d12f40d2b92f0eba0</b>__")
  /\ em_stage (lit "__<b>187ef4436122d12f40d2b92f0eba0</b>__")
     = Some (lit "<em><b>187ef4436122d12f40d2b92f0eba0</b></em>")
  /\ parse_inline_formatting (lit "((_c_*c*[[ab]]*c*_c_))")
     = Some (lit "<em><b>187ef4436122d12f40d2b92f0eba0</b></em>")
  /\ parse_inline_formatting (lit "[[**a**]]") = md5_hash (lit "**a**")
  /\ parse_inline_formatting (lit "[[__a__]]") = md5_hash (lit "__a__")
  /\ parse_inline_formatting (lit "[[((c))]]") = md5_hash (lit "((c))")
  /\ parse_inline_formatting (lit "(([[x]]))")
     = Some (lit "9dd4e4612688034f58564e15567a6")
  /\ parse_inline_formatting (lit "((**c**))") = Some (lit "****")
  /\ parse_inline_formatting (lit "((__c__))") = Some (lit "____")
  /\ parse_inline_formatting (lit "**a __b__ c**")
     = Some (lit "<b>a <em>b</em> c</b>")
  /\ parse_inline_formatting (lit "__a **b** c__")
     = Some (lit "<em>a <b>b</b> c</em>").
Proof.
  split; [|split; [|split]].
  - intros line. unfold parse_inline_formatting, hash_stage, no_c_stage,
      bold_stage, em_stage, re_hash, re_no_c, re_bold, re_em.
    destruct (re_sub (delimited "[" "]") md5_hash line) as [l1|];
      [cbn [bind]|reflexivity].
    destruct (re_sub (delimited "(" ")") remove_c_chars l1) as [l2|];
      [cbn [bind]|reflexivity].
    destruct (re_sub (delimited "*" "*") (template (lit "<b>") (lit "</b>"))
                l2) as [l3|]; [cbn [bind]|reflexivity].
    destruct (re_sub (delimited "_" "_")
                (template (lit "<em>") (lit "</em>")) l3); reflexivity.
  - intros T Hne Hnin. split.
    + apply parse_bold_hash_span; assumption.
    + apply parse_no_c_hash_span; assumption.
  - intros T Hne Hfree Hc. split.
    + exact (parse_delimiters_from_removal "*" "<b>" "</b>" T
               (or_introl (conj eq_refl (conj eq_refl eq_refl)))
               Hne Hfree Hc).
    + exact (parse_delimiters_from_removal "_" "<em>" "</em>" T
               (or_intror (conj eq_refl (conj eq_refl eq_refl)))
               Hne Hfree Hc).
  - vm_compute. repeat split.
Qed.

Lemma stage_order_witness :
  lit "ab" <> [] /\ ~ In (ch "]") (lit "ab")
  /\ delimiter_free (lit "x y")
  /\ (forall x, In x (lit "x y") -> is_c x = false)
  /\ parse_inline_formatting (lit "**[[" ++ lit "ab" ++ lit "]]**")
     = Some (lit "<b>187ef4436122d1cc2f40dc2b92f0eba0</b>")
  /\ parse_inline_formatting
       (lit "((" ++ lit "_c_" ++ lit "x y" ++ lit "_C_" ++ lit "))")
     = Some (lit "<em>x y</em>").
Proof.
  assert (H1 : lit "ab" <> []) by discriminate.
  assert (H2 : ~ In (ch "]") (lit "ab")).
  { intros [H|[H|[]]]; discriminate H. }
  assert (H3 : lit "x y" <> []) by discriminate.
  assert (H4 : delimiter_free (lit "x y")).
  { intros x H. cbv in H.
    repeat (destruct H as [H|H]; [subst x; reflexivity|]). destruct H. }
  assert (H5 : forall x, In x (lit "x y") -> is_c x = false).
  { intros x H. cbv in H.
    repeat (destruct H as [H|H]; [subst x; reflexivity|]). destruct H. }
  split; [exact H1|]. split; [exact H2|]. split; [exact H4|].
  split; [exact H5|]. split.
  - exact (proj1 (proj1 (proj2 stage_order) (lit "ab") H1 H2)).
  - exact (proj2 (proj1 (proj2 (proj2 stage_order)) (lit "x y") H3 H4 H5)).
Defined.
